(** * mcp-bolk: the store/sum tools, the session registry and the chat loop

    A shallow embedding of the server in [server/index.js]:
    - the entry store ([insertEntry], [sumEntries]) over a list of rows;
    - the REST endpoints [POST /api/tools/store] and [GET /api/tools/sum];
    - the tool-protocol [tools/call] request handler;
    - the [transports] registry behind [GET /sse] and [POST /messages];
    - the tool-calling loop of [POST /api/chat].

    Conventions of the model.
    - A JS string is the [string] of its UTF-8 bytes; SQLite compares TEXT
      with memcmp on that encoding, which is [String.leb].
    - A JS number is the rational it denotes, NaN and the infinities apart;
      a [JNum q] stands for a double, so [q] is one.
      Entry values, totals and row ids are integers in [Z], and those that
      JS holds are doubles: [to_double] is the rounding that SQLite's 64-bit
      integers undergo on their way to JS, and [Number_toString] prints as
      JS does, the shortest digits that read back as the same double, in
      exponent form from 10^21 on.
    - SQLite keeps a value as an INTEGER when it lies strictly between
      -2^63 and 2^63, and [SUM] adds INTEGERs in 64 bits, failing with
      "integer overflow" when a running sum leaves that range.
    - The clock, the chat model, the tool session and [JSON.parse] are
      inputs: every reading of [new Date().toISOString()] is an explicit
      argument, the others are oracles of the request. *)

From Stdlib Require Import ZArith QArith String Ascii List Bool Lia DecimalString.
From Stdlib Require Import Qround Finite.
From stdpp Require Import base gmap strings list.
Import ListNotations.

#[local] Set Warnings "-register-all".
#[local] Open Scope string_scope.
#[local] Open Scope list_scope.
#[local] Open Scope Z_scope.

(** ** JS values *)

Inductive jsval : Type :=
| JUndefined
| JNull
| JBool (b : bool)
| JNum (q : Q)
| JNaN
| JInfinity (negative : bool)
| JStr (s : string)
| JArr (items : list jsval)
| JObj (fields : list (string * jsval)).

Inductive jstype := TUndefined | TObject | TBoolean | TNumber | TString.

Definition typeof (v : jsval) : jstype :=
  match v with
  | JUndefined => TUndefined
  | JNull | JArr _ | JObj _ => TObject
  | JBool _ => TBoolean
  | JNum _ | JNaN | JInfinity _ => TNumber
  | JStr _ => TString
  end.

(** [ToBoolean]: what [!v] and [v || d] test. *)
Definition truthy (v : jsval) : bool :=
  match v with
  | JUndefined | JNull | JNaN => false
  | JBool b => b
  | JNum q => negb (Qnum q =? 0)
  | JInfinity _ => true
  | JStr s => negb (String.eqb s "")
  | JArr _ | JObj _ => true
  end.

(** [Number.isInteger(v)]. *)
Definition Number_isInteger (v : jsval) : bool :=
  match v with
  | JNum q => Qnum q mod Zpos (Qden q) =? 0
  | _ => false
  end.

Definition jstype_eqb (a b : jstype) : bool :=
  match a, b with
  | TUndefined, TUndefined | TObject, TObject | TBoolean, TBoolean
  | TNumber, TNumber | TString, TString => true
  | _, _ => false
  end.

(** [typeof v === t] *)
Definition has_type (t : jstype) (v : jsval) : bool := jstype_eqb (typeof v) t.

(** The integer a number denotes, once [Number_isInteger] holds. *)
Definition integer_of (v : jsval) : Z :=
  match v with
  | JNum q => Qnum q / Zpos (Qden q)
  | _ => 0
  end.

(** The text of a value, once [typeof v === 'string'] holds. *)
Definition string_of (v : jsval) : string :=
  match v with
  | JStr s => s
  | _ => ""
  end.

(** [!!s] for a string that may be missing. *)
Definition is_set (v : option string) : bool :=
  match v with
  | Some s => negb (String.eqb s "")
  | None => false
  end.

(** [v || {}] *)
Definition or_empty (v : jsval) : jsval := if truthy v then v else JObj [].

Fixpoint assoc (k : string) (fields : list (string * jsval)) : jsval :=
  match fields with
  | [] => JUndefined
  | (k', v) :: rest => if String.eqb k k' then v else assoc k rest
  end.

(** [o.k] on the result of [o || {}]: a missing key, and any key among
    [value], [description], [from], [to] on a value that is not a plain
    object, reads as [undefined].  An object lists each key once. *)
Definition prop (o : jsval) (k : string) : jsval :=
  match o with
  | JObj fields => assoc k fields
  | _ => JUndefined
  end.

(** ** Strings: [trim] on UTF-8 bytes *)

Definition ws1 (a : ascii) : bool :=
  let n := N_of_ascii a in
  ((9 <=? n) && (n <=? 13) || (n =? 32))%N.

Definition ws2 (a b : ascii) : bool :=
  ((N_of_ascii a =? 194) && (N_of_ascii b =? 160))%N.

Definition ws3 (a b c : ascii) : bool :=
  let x := N_of_ascii a in
  let y := N_of_ascii b in
  let z := N_of_ascii c in
  ((x =? 225) && (y =? 154) && (z =? 128)
   || (x =? 226) && (y =? 128)
      && ((128 <=? z) && (z <=? 138) || (z =? 168) || (z =? 169) || (z =? 175))
   || (x =? 226) && (y =? 129) && (z =? 159)
   || (x =? 227) && (y =? 128) && (z =? 128)
   || (x =? 239) && (y =? 187) && (z =? 191))%N.

(** Drops the white space and line terminators at the front.  With
    [backwards] the string is read from its end, so the bytes of a
    character arrive last byte first. *)
Fixpoint strip (backwards : bool) (s : string) : string :=
  match s with
  | EmptyString => EmptyString
  | String a r =>
      if ws1 a then strip backwards r else
      match r with
      | EmptyString => s
      | String b r2 =>
          if (if backwards then ws2 b a else ws2 a b) then strip backwards r2 else
          match r2 with
          | EmptyString => s
          | String c r3 =>
              if (if backwards then ws3 c b a else ws3 a b c)
              then strip backwards r3 else s
          end
      end
  end.

Definition reverse_string (s : string) : string :=
  string_of_list_ascii (List.rev (list_ascii_of_string s)).

Definition trimStart (s : string) : string := strip false s.

Definition trimEnd (s : string) : string :=
  reverse_string (strip true (reverse_string s)).

Definition trim (s : string) : string := trimEnd (trimStart s).

(** [!s.trim()] *)
Definition blank (s : string) : bool := String.eqb (trim s) "".

(** ** Numbers: doubles that are integers *)

(** The decimal digits of an integer, with its sign. *)
Definition decimal (n : Z) : string :=
  NilZero.string_of_int (Z.to_int n).

(** The double nearest to the integer [n], a tie going to the even
    significand: what a 64-bit integer of SQLite becomes as a JS number.
    Integers up to 2^53 in magnitude are doubles already; a larger one keeps
    its 53 leading bits.  (Every integer here is below 2^1024.) *)
Definition to_double (n : Z) : Z :=
  let a := Z.abs n in
  if a <=? 2 ^ 53 then n
  else
    let k := Z.log2 a - 52 in
    let q := a / 2 ^ k in
    let r := a mod 2 ^ k in
    let half := 2 ^ (k - 1) in
    let q' := if (half <? r) || (r =? half) && Z.odd q then q + 1 else q in
    Z.sgn n * (q' * 2 ^ k).

(** The digits that [Number::toString] chooses for the double [x > 0]:
    [(s, e)] with [s * 10 ^ e] reading back as [x] and [s] as short as can
    be; of two such [s] the one nearer to [x], the even one at a tie.
    [(s, e)] is the choice so far; one more digit is dropped while the
    result still reads back. *)
Fixpoint shortest_digits (fuel : nat) (x s e : Z) : Z * Z :=
  match fuel with
  | O => (s, e)
  | S fuel' =>
      let p := 10 ^ (e + 1) in
      let lo := x / p in
      let hi := lo + 1 in
      let lo_ok := (0 <? lo) && (to_double (lo * p) =? x) in
      let hi_ok := to_double (hi * p) =? x in
      if lo_ok && hi_ok then
        let below := x - lo * p in
        let above := hi * p - x in
        shortest_digits fuel' x
          (if below <? above then lo
           else if above <? below then hi
           else if Z.even lo then lo else hi) (e + 1)
      else if lo_ok then shortest_digits fuel' x lo (e + 1)
      else if hi_ok then shortest_digits fuel' x hi (e + 1)
      else (s, e)
  end.

Definition zeros (n : Z) : string :=
  string_of_list_ascii (List.repeat "0"%char (Z.to_nat n)).

(** [String(n)] and [JSON.stringify(n)] for a number that is an integer:
    every digit up to 2^53 in magnitude; beyond, the shortest digits
    followed by zeros below 10^21, and [d.ddde+x] from 10^21 on. *)
Definition Number_toString (n : Z) : string :=
  if Z.abs n <=? 2 ^ 53 then decimal n
  else
    let x := Z.abs (to_double n) in
    let (s, e) := shortest_digits (Z.to_nat (Z.log2 x)) x x 0 in
    let digits := decimal s in
    let k := Z.of_nat (String.length digits) in
    let sign := if n <? 0 then "-" else "" in
    if k + e <=? 21 then sign +:+ digits +:+ zeros e
    else
      match digits with
      | String d EmptyString => sign +:+ String d "" +:+ "e+" +:+ decimal (k + e - 1)
      | String d rest =>
          sign +:+ String d "" +:+ "." +:+ rest +:+ "e+" +:+ decimal (k + e - 1)
      | EmptyString => sign
      end.

Definition hex_digit (n : N) : ascii :=
  ascii_of_N (if (n <? 10)%N then 48 + n else 87 + n)%N.

(** The escapes of [JSON.stringify] inside a string literal. *)
Definition json_escape_char (a : ascii) : string :=
  let n := N_of_ascii a in
  if (n =? 34)%N then "\" +:+ String a ""
  else if (n =? 92)%N then "\\"
  else if (n =? 8)%N then "\b"
  else if (n =? 12)%N then "\f"
  else if (n =? 10)%N then "\n"
  else if (n =? 13)%N then "\r"
  else if (n =? 9)%N then "\t"
  else if (n <? 32)%N
       then "\u00" +:+ String (hex_digit (n / 16)) (String (hex_digit (n mod 16)) "")
  else String a "".

Fixpoint json_escape (s : string) : string :=
  match s with
  | EmptyString => EmptyString
  | String a r => json_escape_char a +:+ json_escape r
  end.

Definition dquote : string := String (ascii_of_N 34) "".

Definition json_string (s : string) : string :=
  dquote +:+ json_escape s +:+ dquote.

(** ** The entry store *)

Record Entry := mkEntry {
  e_id : Z;
  e_value : Z;
  e_description : string;
  e_created_at : string
}.

(** The [entries] table in insertion order, and the AUTOINCREMENT counter
    kept in [sqlite_sequence]. *)
Record Database := mkDatabase {
  entries : list Entry;
  seq : Z
}.

Definition empty_db : Database := mkDatabase [] 0.

(** [insertEntry({ value, description })]; [createdAt] is what
    [new Date().toISOString()] returned. *)
Definition insertEntry (createdAt : string) (value : Z) (description : string)
    (db : Database) : Entry * Database :=
  let lastInsertRowid := seq db + 1 in
  let row := mkEntry lastInsertRowid value description createdAt in
  (row, mkDatabase (entries db ++ [row]) lastInsertRowid).

(** [WHERE created_at >= ? AND created_at <= ?] *)
Definition in_range (from to : string) (e : Entry) : bool :=
  String.leb from (e_created_at e) && String.leb (e_created_at e) to.

Definition sum_values (rows : list Entry) : Z :=
  fold_right (fun e acc => e_value e + acc) 0 rows.

(** The sum of the values whose timestamp lies in the range. *)
Definition range_total (from to : string) (db : Database) : Z :=
  sum_values (List.filter (in_range from to) (entries db)).

(** The [value] column has INTEGER affinity: a bound number that is an
    integer strictly between -2^63 and 2^63 is kept as an INTEGER, any other
    stays a REAL. *)
Definition stored_as_integer (e : Entry) : bool :=
  (- 2 ^ 63 <? e_value e) && (e_value e <? 2 ^ 63).

Definition in_int64 (n : Z) : bool := (- 2 ^ 63 <=? n) && (n <? 2 ^ 63).

(** [SUM(value)] over rows that are all INTEGERs, added in 64 bits row by
    row from [acc]; [None] when a running sum overflows. *)
Fixpoint sum_int64 (acc : Z) (rows : list Entry) : option Z :=
  match rows with
  | [] => Some acc
  | e :: rest =>
      if in_int64 (acc + e_value e) then sum_int64 (acc + e_value e) rest else None
  end.

(** The rows are INTEGERs and [SUM] adds them without overflow. *)
Definition sums_in_int64 (rows : list Entry) : bool :=
  forallb stored_as_integer rows
  && match sum_int64 0 rows with Some _ => true | None => false end.

(** [JSON.stringify(entry)] *)
Definition JSON_stringify_entry (e : Entry) : string :=
  "{" +:+ json_string "id" +:+ ":" +:+ Number_toString (e_id e)
  +:+ "," +:+ json_string "value" +:+ ":" +:+ Number_toString (e_value e)
  +:+ "," +:+ json_string "description" +:+ ":" +:+ json_string (e_description e)
  +:+ "," +:+ json_string "created_at" +:+ ":" +:+ json_string (e_created_at e)
  +:+ "}".

(** ** Results of the two presentation layers *)

Definition exn := string.

Record ContentItem := mkContent {
  c_type : string;
  c_text : option string
}.

(** [{ content, isError }]; an absent [isError] reads as [false]. *)
Record CallToolResult := mkResult {
  content : list ContentItem;
  isError : bool
}.

Definition text_result (text : string) (is_error : bool) : CallToolResult :=
  mkResult [mkContent "text" (Some text)] is_error.

Inductive RestBody :=
| ErrorBody (error : string)
| EntryBody (entry : Entry)
| TotalBody (total : Z).

(** [res.status(status).json(body)]; [res.json(body)] has status 200. *)
Record HttpResponse := mkResponse {
  status : nat;
  body : RestBody
}.

(** What [res.json] writes. *)
Definition JSON_stringify_body (b : RestBody) : string :=
  match b with
  | ErrorBody error => "{" +:+ json_string "error" +:+ ":" +:+ json_string error +:+ "}"
  | EntryBody entry => JSON_stringify_entry entry
  | TotalBody total => "{" +:+ json_string "total" +:+ ":" +:+ Number_toString total +:+ "}"
  end.

(** A value of [req.query]: a string, or the arrays and objects the query
    parser builds from repeated and bracketed keys. *)
Inductive qval :=
| QStr (s : string)
| QArr (items : list qval)
| QObj (fields : list (string * qval)).

Definition join_comma (parts : list string) : string :=
  match parts with
  | [] => ""
  | p :: rest => fold_left (fun acc x => acc +:+ "," +:+ x) rest p
  end.

Fixpoint qval_toString (v : qval) : string :=
  match v with
  | QStr s => s
  | QArr items => join_comma (List.map qval_toString items)
  | QObj _ => "[object Object]"
  end.

(** [String(v)] *)
Definition String_ (v : option qval) : string :=
  match v with
  | None => "undefined"
  | Some q => qval_toString q
  end.

(** [!v] for a query parameter that may be missing. *)
Definition query_truthy (v : option qval) : bool :=
  match v with
  | None => false
  | Some (QStr s) => negb (String.eqb s "")
  | Some _ => true
  end.

Section Server.

(** What [stmt.get(from, to)] of [sumEntries] gives as [row.total] in the
    two cases that are left to the driver and the engine:
    - one of the two bound values is not a string: the driver binds a
      number, refuses a boolean and spreads an array or an object into
      parameters (only the tool-protocol handler can hand such a value
      over);
    - a row in range holds a REAL, a value outside the 64-bit integers:
      [SUM] then adds in floating point. *)
Variable stmt_get_other : jsval -> jsval -> Database -> exn + Z.

(** [sumEntries({ from, to })]: [COALESCE(SUM(value), 0)] over the rows in
    range, in the order of the table, then [row.total || 0].  The sum of
    INTEGERs is a 64-bit integer, which reaches JS as a double. *)
Definition sumEntries (from to : jsval) (db : Database) : exn + Z :=
  let row_total :=
    match from, to with
    | JStr f, JStr t =>
        match List.filter (in_range f t) (entries db) with
        | [] => inr 0
        | rows =>
            if forallb stored_as_integer rows then
              match sum_int64 0 rows with
              | Some total => inr (to_double total)
              | None => inl "SqliteError: integer overflow"
              end
            else stmt_get_other from to db
        end
    | _, _ => stmt_get_other from to db
    end in
  match row_total with
  | inl e => inl e
  | inr total => inr (if total =? 0 then 0 else total)
  end.

(** [app.post('/api/tools/store')] *)
Definition rest_store (now : string) (req_body : jsval) (db : Database)
    : HttpResponse * Database :=
  let value := prop (or_empty req_body) "value" in
  let description := prop (or_empty req_body) "description" in
  if negb (has_type TNumber value) || negb (Number_isInteger value)
  then (mkResponse 400 (ErrorBody "value must be an integer"), db)
  else if negb (has_type TString description) || blank (string_of description)
  then (mkResponse 400 (ErrorBody "description is required"), db)
  else
    let (entry, db') := insertEntry now (integer_of value) (string_of description) db in
    (mkResponse 200 (EntryBody entry), db').

(** [app.get('/api/tools/sum')] *)
Definition rest_sum (from to : option qval) (db : Database) : exn + HttpResponse :=
  if negb (query_truthy from) || negb (query_truthy to)
  then inr (mkResponse 400
         (ErrorBody "from and to query params are required (ISO datetime)"))
  else
    match sumEntries (JStr (String_ from)) (JStr (String_ to)) db with
    | inl e => inl e
    | inr total => inr (mkResponse 200 (TotalBody total))
    end.

(** [server.setRequestHandler(CallToolRequestSchema, ...)]: the request
    schema makes [name] a string; [args] is [req.params.arguments]. *)
Definition CallTool_handler (now : string) (name : string) (args : jsval)
    (db : Database) : (exn + CallToolResult) * Database :=
  if String.eqb name "store" then
    let value := prop (or_empty args) "value" in
    let description := prop (or_empty args) "description" in
    if negb (has_type TNumber value) || negb (Number_isInteger value)
    then (inr (text_result "value must be integer" true), db)
    else if negb (has_type TString description) || blank (string_of description)
    then (inr (text_result "description is required" true), db)
    else
      let (entry, db') := insertEntry now (integer_of value) (string_of description) db in
      (inr (text_result (JSON_stringify_entry entry) false), db')
  else if String.eqb name "sum" then
    let from := prop (or_empty args) "from" in
    let to := prop (or_empty args) "to" in
    if negb (truthy from) || negb (truthy to)
    then (inr (text_result "from and to are required (ISO datetime)" true), db)
    else
      match sumEntries from to db with
      | inl e => (inl e, db)
      | inr total => (inr (text_result (Number_toString total) false), db)
      end
  else (inr (text_result ("Unknown tool: " +:+ name) true), db).

End Server.

(** ** The session registry: [transports], [GET /sse], [POST /messages] *)

Section Sessions.

Context {Transport : Type}.

(** What the handlers read of a [GET /sse] request. *)
Record SseRequest := mkSseRequest {
  authorization : option string;
  query_token : option qval
}.

Inductive SseOutcome :=
| Unauthorized
| Opened (transports : gmap string Transport).

(** [authHeader.startsWith('Bearer ') ? authHeader.slice(7) : ''] *)
Definition bearer_of (authHeader : string) : string :=
  if String.prefix "Bearer " authHeader
  then String.substring 7 (String.length authHeader - 7) authHeader
  else "".

Definition query_is (v : option qval) (s : string) : bool :=
  match v with
  | Some (QStr s') => String.eqb s' s
  | _ => false
  end.

(** [app.get('/sse')]: [requiredToken] is [process.env.MCP_AUTH_TOKEN];
    [sessionId] and [transport] are the fresh [SSEServerTransport]. *)
Definition get_sse (requiredToken : option string) (req : SseRequest)
    (sessionId : string) (transport : Transport)
    (transports : gmap string Transport) : SseOutcome :=
  let unauthorized :=
    if is_set requiredToken then
      let token := default "" requiredToken in
      let authHeader := default "" (authorization req) in
      negb (String.eqb (bearer_of authHeader) token)
      && negb (query_is (query_token req) token)
    else false in
  if unauthorized then Unauthorized
  else Opened (<[sessionId := transport]> transports).

(** [res.on('close', ...)] *)
Definition on_close (sessionId : string) (transports : gmap string Transport)
    : gmap string Transport :=
  delete sessionId transports.

Inductive Dispatch :=
| Routed (transport : Transport)
| Rejected (status : nat) (error : string).

(** [app.post('/messages')]: [sessionId] is [req.query.sessionId]. *)
Definition post_messages (transports : gmap string Transport)
    (sessionId : option qval) : Dispatch :=
  match sessionId with
  | Some (QStr sid) =>
      match transports !! sid with
      | Some transport => Routed transport
      | None => Rejected 400 "No transport for sessionId"
      end
  | _ => Rejected 400 "Bad session id"
  end.

(** The life of the registry: connections arriving and closing. *)
Inductive SessionEvent :=
| Sse (req : SseRequest) (sessionId : string) (transport : Transport)
| Closed (sessionId : string).

Definition session_step (requiredToken : option string)
    (transports : gmap string Transport) (ev : SessionEvent)
    : gmap string Transport :=
  match ev with
  | Sse req sid transport =>
      match get_sse requiredToken req sid transport transports with
      | Opened transports' => transports'
      | Unauthorized => transports
      end
  | Closed sid => on_close sid transports
  end.

Definition registry_after (requiredToken : option string)
    (events : list SessionEvent) : gmap string Transport :=
  fold_left (session_step requiredToken) events ∅.

Definition issues (sid : string) (ev : SessionEvent) : Prop :=
  match ev with
  | Sse _ sid' _ => sid' = sid
  | Closed _ => False
  end.

End Sessions.

Arguments SseOutcome : clear implicits.
Arguments Dispatch : clear implicits.
Arguments SessionEvent : clear implicits.

(** ** The chat endpoint *)

(** The environment variables the chat endpoint reads. *)
Record Config := mkConfig {
  OPENAI_API_KEY : option string;
  OPENROUTER_API_KEY : option string;
  LLM_PROVIDER : option string;
  OPENAI_MODEL : option string
}.

Definition PROVIDER (c : Config) : string :=
  if is_set (LLM_PROVIDER c) then default "" (LLM_PROVIDER c)
  else if is_set (OPENROUTER_API_KEY c) then "openrouter"
  else if is_set (OPENAI_API_KEY c) then "openai"
  else "".

Definition DEFAULT_MODEL (c : Config) : string :=
  if is_set (OPENAI_MODEL c) then default "" (OPENAI_MODEL c)
  else if String.eqb (PROVIDER c) "openrouter" then "openai/gpt-4o-mini"
  else "gpt-4o-mini".

(** [createOpenAIClient()]: [None] when the client is built, else the
    rendering of the error thrown. *)
Definition createOpenAIClient (c : Config) : option exn :=
  if String.eqb (PROVIDER c) "openrouter" then
    if negb (is_set (OPENROUTER_API_KEY c))
    then Some "Error: Missing OPENROUTER_API_KEY" else None
  else
    if negb (is_set (OPENAI_API_KEY c))
    then Some "Error: Missing OPENAI_API_KEY" else None.

Record ToolDescriptor := mkTool {
  t_name : string;
  t_description : option string;
  t_inputSchema : option jsval
}.

Record OpenAITool := mkOpenAITool {
  f_name : string;
  f_description : string;
  f_parameters : jsval
}.

(** [toOpenAITools(mcpTools)] *)
Definition toOpenAITools (mcpTools : list ToolDescriptor) : list OpenAITool :=
  List.map (fun t =>
    mkOpenAITool (t_name t)
      (if is_set (t_description t) then default "" (t_description t) else "")
      (match t_inputSchema t with
       | Some schema => if truthy schema then schema else JObj [("type", JStr "object")]
       | None => JObj [("type", JStr "object")]
       end)) mcpTools.

(** [toolsList], what [tools/list] answers. *)
Definition toolsList : list ToolDescriptor :=
  [ mkTool "store" (Some "Store an integer value with description and timestamp")
      (Some (JObj [("type", JStr "object");
                   ("properties", JObj [("value", JObj [("type", JStr "integer")]);
                                        ("description", JObj [("type", JStr "string")])]);
                   ("required", JArr [JStr "value"; JStr "description"])]));
    mkTool "sum" (Some "Sum values between ISO datetime range [from, to]")
      (Some (JObj [("type", JStr "object");
                   ("properties", JObj [("from", JObj [("type", JStr "string")]);
                                        ("to", JObj [("type", JStr "string")])]);
                   ("required", JArr [JStr "from"; JStr "to"])])) ].

(** [tc.function]: a missing [name] or [arguments] is [None]. *)
Record FunctionCall := mkFunctionCall {
  fc_name : option string;
  fc_arguments : option string
}.

Record ToolCall := mkToolCall {
  tc_id : string;
  tc_function : option FunctionCall
}.

(** The assistant message of a completion; a [null] or missing [content]
    or [tool_calls] is [None]. *)
Record Message := mkMessage {
  m_content : option string;
  m_tool_calls : option (list ToolCall)
}.

Record Choice := mkChoice { message : option Message }.

Record Completion := mkCompletion { choices : option (list Choice) }.

(** [completion.choices?.[0]?.message] *)
Definition first_message (completion : Completion) : option Message :=
  match choices completion with
  | Some (choice :: _) => message choice
  | _ => None
  end.

(** A turn of the conversation: one given in the request body, the one
    built from [message], or one the loop pushes. *)
Inductive ChatTurn :=
| Given (turn : jsval)
| UserTurn (content : string)
| AssistantTurn (content : string) (tool_calls : option (list ToolCall))
| ToolTurn (content : string) (tool_call_id : string).

Record ToolLog := mkToolLog {
  name : option string;
  args : jsval;
  output : string
}.

Inductive ChatBody :=
| Reply (content : string) (model : string) (toolLogs : list ToolLog)
| Failure (error : string) (detail : option exn).

Record ChatResponse := mkChatResponse {
  chat_status : nat;
  chat_body : ChatBody
}.

(** What [callMcpTool] returns. *)
Record ToolOutput := mkToolOutput {
  o_isError : bool;
  text : string
}.

Definition MAX_TOOL_ITERATIONS : nat := 5.

Definition STOPPED : string := "(stopped after max tool iterations)".

Module ChatMonad.

(** Computations of a request: they read and change a world [W] and may
    throw. *)
Definition M (W A : Type) : Type := W -> (exn + A) * W.

Definition ret {W A} (a : A) : M W A := fun w => (inr a, w).

Definition throw {W A} (e : exn) : M W A := fun w => (inl e, w).

Definition bind {W A B} (m : M W A) (k : A -> M W B) : M W B :=
  fun w =>
    match m w with
    | (inr a, w') => k a w'
    | (inl e, w') => (inl e, w')
    end.

(** [try { body } finally { cleanup }], for a [cleanup] that returns. *)
Definition finally {W A} (body : M W A) (cleanup : W -> W) : M W A :=
  fun w => let (r, w') := body w in (r, cleanup w').

(** [try { body } catch (e) { return handler(e) }] *)
Definition catch {W A} (body : M W A) (handler : exn -> A) : M W A :=
  fun w =>
    match body w with
    | (inr a, w') => (inr a, w')
    | (inl e, w') => (inr (handler e), w')
    end.

End ChatMonad.

Import ChatMonad.

Declare Scope chat_scope.
Delimit Scope chat_scope with chat.
Notation "'let*' x := m 'in' k" := (bind m (fun x => k))
  (at level 10, x name, m at level 100, k at level 200,
   format "'[v' 'let*'  x  :=  m  'in' '/' k ']'") : chat_scope.
Notation "'let*' ' p := m 'in' k" := (bind m (fun x => match x with p => k end))
  (at level 10, p strict pattern, m at level 100, k at level 200) : chat_scope.

Section Chat.

(** The state behind the tool session (for the server's own [/sse]
    endpoint: its database). *)
Variable Sess : Type.

(** [process.env] *)
Variable config : Config.

(** [connectMcpClient(sseUrl)]: [None] when the client connects. *)
Variable connect_result : option exn.

(** [listMcpTools(mcp)] *)
Variable listed_tools : exn + list ToolDescriptor.

(** [openai.chat.completions.create({ model, messages, tools, ... })];
    the first argument counts the earlier calls of the request. *)
Variable create : nat -> list ChatTurn -> list OpenAITool -> exn + Completion.

(** [mcp.request({ method: 'tools/call', params: { name, arguments } })] *)
Variable tools_call : option string -> jsval -> Sess -> (exn + CallToolResult) * Sess.

Variable JSON_parse : string -> exn + jsval.

(** [JSON.stringify(res)] for a [tools/call] result. *)
Variable JSON_stringify_result : CallToolResult -> string.

Inductive Effect :=
| EConnect
| EListTools
| ECreate (messages : list ChatTurn) (result : exn + Completion)
| ECallTool (name : option string) (arguments : jsval) (result : exn + CallToolResult)
| EClose.

(** The tool session and the calls made so far, oldest first. *)
Record World := mkWorld {
  session : Sess;
  trace : list Effect
}.

Definition is_create (ev : Effect) : bool :=
  match ev with ECreate _ _ => true | _ => false end.

Definition is_call_tool (ev : Effect) : bool :=
  match ev with ECallTool _ _ _ => true | _ => false end.

Definition model_calls (w : World) : nat :=
  List.length (List.filter is_create (trace w)).

Definition emit (ev : Effect) (w : World) : World :=
  mkWorld (session w) (trace w ++ [ev]).

Definition of_result {A} (r : exn + A) : M World A :=
  fun w => (r, w).

#[local] Open Scope chat_scope.

Definition connectMcpClient : M World unit :=
  fun w =>
    (match connect_result with Some e => inl e | None => inr tt end,
     emit EConnect w).

Definition listMcpTools : M World (list ToolDescriptor) :=
  fun w => (listed_tools, emit EListTools w).

Definition mcp_close (w : World) : World := emit EClose w.

Definition chat_completions_create (messages : list ChatTurn)
    (tools : list OpenAITool) : M World Completion :=
  fun w =>
    let result := create (model_calls w) messages tools in
    (result, emit (ECreate messages result) w).

Definition mcp_request (name : option string) (arguments : jsval)
    : M World CallToolResult :=
  fun w =>
    let (result, session') := tools_call name arguments (session w) in
    (result, emit (ECallTool name arguments result) (mkWorld session' (trace w))).

(** The loop of [callMcpTool] over [res.content]. *)
Definition collect_text (content : list ContentItem) : string :=
  fold_left
    (fun text c =>
       if String.eqb (c_type c) "text" && is_set (c_text c)
       then text +:+ default "" (c_text c) +:+ "
" else text)
    content "".

(** The result of [callMcpTool] once [res] has arrived. *)
Definition flatten_result (res : CallToolResult) : ToolOutput :=
  let text := collect_text (content res) in
  let text := if String.eqb text "" then JSON_stringify_result res else text in
  mkToolOutput (isError res) (trim text).

(** [callMcpTool(mcp, name, args)] *)
Definition callMcpTool (name : option string) (args : jsval) : M World ToolOutput :=
  let* res := mcp_request name (or_empty args) in
  ret (flatten_result res).

(** [tc.function?.name] *)
Definition call_name (tc : ToolCall) : option string :=
  match tc_function tc with
  | Some f => fc_name f
  | None => None
  end.

(** [tc.function?.arguments ? JSON.parse(tc.function.arguments) : {}] *)
Definition call_args (tc : ToolCall) : exn + jsval :=
  match tc_function tc with
  | Some f =>
      if is_set (fc_arguments f)
      then JSON_parse (default "" (fc_arguments f))
      else inr (JObj [])
  | None => inr (JObj [])
  end.

(** [for (const tc of toolCalls) { ... }] *)
Fixpoint run_tool_calls (toolCalls : list ToolCall) (toolLogs : list ToolLog)
    (toolMessages : list ChatTurn) : M World (list ToolLog * list ChatTurn) :=
  match toolCalls with
  | [] => ret (toolLogs, toolMessages)
  | tc :: rest =>
      let name := call_name tc in
      let* args := of_result (call_args tc) in
      let* out := callMcpTool name args in
      run_tool_calls rest
        (toolLogs ++ [mkToolLog name args (text out)])
        (toolMessages ++ [ToolTurn (text out) (tc_id tc)])
  end.

Definition stopped (model : string) (toolLogs : list ToolLog) : ChatResponse :=
  mkChatResponse 200 (Reply STOPPED model toolLogs).

(** [while (guard < 5) { guard++; ... }] and the [return] after it;
    [rounds_left] is [5 - guard] at the test of the loop. *)
Fixpoint chat_rounds (rounds_left : nat) (model : string) (tools : list OpenAITool)
    (messages : list ChatTurn) (completion : Completion)
    (toolLogs : list ToolLog) : M World ChatResponse :=
  match rounds_left with
  | O => ret (stopped model toolLogs)
  | S rounds_left' =>
      match first_message completion with
      | None => ret (stopped model toolLogs)
      | Some msg =>
          let toolCalls := default [] (m_tool_calls msg) in
          let content := if is_set (m_content msg) then default "" (m_content msg) else "" in
          match toolCalls with
          | [] => ret (mkChatResponse 200 (Reply content model toolLogs))
          | _ =>
              let* '(toolLogs', toolMessages) := run_tool_calls toolCalls toolLogs [] in
              let messages' :=
                messages ++ [AssistantTurn content (m_tool_calls msg)] ++ toolMessages in
              let* completion' := chat_completions_create messages' tools in
              chat_rounds rounds_left' model tools messages' completion' toolLogs'
          end
      end
  end.

(** The [messages] of the request: the [messages] of the body when given,
    else the trimmed [message] as one user turn. *)
Definition request_messages (req_body : jsval) : jsval + list ChatTurn :=
  let message := prop (or_empty req_body) "message" in
  let messages := prop (or_empty req_body) "messages" in
  if negb (truthy messages) && has_type TString message
     && negb (blank (string_of message))
  then inr [UserTurn (trim (string_of message))]
  else inl messages.

(** [!Array.isArray(messages) || messages.length === 0] *)
Definition usable_messages (messages : jsval + list ChatTurn) : option (list ChatTurn) :=
  match messages with
  | inr turns => Some turns
  | inl (JArr (item :: items)) => Some (List.map Given (item :: items))
  | inl _ => None
  end.

(** [app.post('/api/chat')] *)
Definition post_chat (req_body : jsval) : M World ChatResponse :=
  catch
    (match usable_messages (request_messages req_body) with
     | None =>
         ret (mkChatResponse 400
                (Failure "Provide `message` or non-empty `messages` array." None))
     | Some messages =>
         let model := DEFAULT_MODEL config in
         let* _ := of_result (match createOpenAIClient config with
                              | Some e => inl e | None => inr tt end) in
         let* _ := connectMcpClient in
         finally
           (let* mcpTools := listMcpTools in
            match mcpTools with
            | [] => ret (mkChatResponse 500 (Failure "No MCP tools available" None))
            | _ =>
                let tools := toOpenAITools mcpTools in
                let* completion := chat_completions_create messages tools in
                chat_rounds MAX_TOOL_ITERATIONS model tools messages completion []
            end)
           mcp_close
     end)
    (fun e => mkChatResponse 500 (Failure "chat_failed" (Some e))).

(** The names of the tools called over the session, oldest first. *)
Definition called_tools (effects : list Effect) : list (option string) :=
  flat_map (fun ev => match ev with ECallTool name _ _ => [name] | _ => [] end) effects.

Definition tool_call_id_of (turn : ChatTurn) : option string :=
  match turn with
  | ToolTurn _ id => Some id
  | _ => None
  end.

Definition content_of (turn : ChatTurn) : string :=
  match turn with
  | Given _ => ""
  | UserTurn content | AssistantTurn content _ | ToolTurn content _ => content
  end.

(** A requested call that names its tool and whose arguments are text
    that [JSON.parse] accepts. *)
Definition well_formed_call (tc : ToolCall) : Prop :=
  (exists tool, call_name tc = Some tool) /\ exists args, call_args tc = inr args.

(** A completion that asks for at least one tool call, each well formed. *)
Definition requests_tools (completion : Completion) : Prop :=
  exists msg tc tcs,
    first_message completion = Some msg
    /\ m_tool_calls msg = Some (tc :: tcs)
    /\ Forall well_formed_call (tc :: tcs).

(** A computation in which a failed call of the chat model is the last
    thing that happens: it is thrown on. *)
Definition model_failure_aborts {A} (m : M World A) : Prop :=
  forall w r w' messages e,
    m w = (r, w') ->
    In (ECreate messages (inl e)) (trace w') ->
    In (ECreate messages (inl e)) (trace w) \/ r = inl e.

End Chat.

Arguments mkWorld {Sess}.
Arguments session {Sess}.
Arguments trace {Sess}.
Arguments model_calls {Sess}.
Arguments model_failure_aborts {Sess A}.

(** The tool session of the server's own [/sse] endpoint: the request
    reaches [CallTool_handler] with the server's clock.  What the handler
    throws, and a request without a [name], which fails the request schema
    before it reaches the handler, come back to the client as a protocol
    error (code -32603); its text is the SDK's: [mcp_error], given what the
    handler threw, or nothing for the failed schema. *)
Definition local_tools_call (stmt_get_other : jsval -> jsval -> Database -> exn + Z)
    (clock : Database -> string) (mcp_error : option exn -> exn) (name : option string)
    (arguments : jsval) (db : Database) : (exn + CallToolResult) * Database :=
  match name with
  | Some n =>
      match CallTool_handler stmt_get_other (clock db) n arguments db with
      | (inl e, db') => (inl (mcp_error (Some e)), db')
      | answered => answered
      end
  | None => (inl (mcp_error None), db)
  end.

(** A tool session that reports a failed call as an error result, as a
    server does that catches what its tools throw. *)
Definition reports_failures {Sess : Type}
    (call : option string -> jsval -> Sess -> (exn + CallToolResult) * Sess)
    (name : option string) (arguments : jsval) (s : Sess)
    : (exn + CallToolResult) * Sess :=
  match call name arguments s with
  | (inl e, s') => (inr (text_result e true), s')
  | answered => answered
  end.

(** ** Comparing the two presentation layers *)

(** The decision of a call and the text it carries. *)
Record Outcome := mkOutcome {
  succeeded : bool;
  outcome_text : string
}.

(** REST: success is status 200; the text is the [error] of an error body,
    else the JSON written. *)
Definition rest_outcome (r : HttpResponse) : Outcome :=
  mkOutcome (Nat.eqb (status r) 200)
    (match body r with
     | ErrorBody error => error
     | b => JSON_stringify_body b
     end).

(** [tools/call]: success is a result without [isError]; the text is that
    of its text items. *)
Definition tool_outcome (r : CallToolResult) : Outcome :=
  mkOutcome (negb (isError r))
    (String.concat "" (List.map (fun c => default "" (c_text c)) (content r))).

(** An argument that both surfaces can carry: a string, or nothing. *)
Definition query_arg (a : option string) : option qval :=
  match a with
  | Some s => Some (QStr s)
  | None => None
  end.

Definition tool_field (k : string) (a : option string) : list (string * jsval) :=
  match a with
  | Some s => [(k, JStr s)]
  | None => []
  end.

Definition sum_arguments (from to : option string) : jsval :=
  JObj (tool_field "from" from ++ tool_field "to" to).

Definition absent_or_empty (v : jsval) : Prop :=
  v = JUndefined \/ v = JStr "".

(** The part of [stmt.get] that is left to the driver, for the examples and
    the deployment: they bind strings and store 64-bit integers and so never
    ask for it; it answers 0. *)
Definition binds_anything : jsval -> jsval -> Database -> exn + Z :=
  fun _ _ _ => inr 0.

Definition FROM_1970 : string := "1970-01-01T00:00:00.000Z".
Definition TO_2100 : string := "2100-01-01T00:00:00.000Z".

(** ** A deployment to run the endpoint on

    The chat endpoint against the server's own tool session, with a clock
    that stands still and scripted chat models. *)

Definition server_clock (db : Database) : string := "2025-06-01T12:00:00.000Z".


(** The protocol error of the deployment: its code, without the text that
    the SDK puts after it.  In no example does the handler throw or a
    request lack its name. *)
Definition mcp_error_32603 (cause : option exn) : exn := "McpError: MCP error -32603".

Definition openai_config : Config := mkConfig (Some "sk-test") None None None.

Definition stringify_item (c : ContentItem) : string :=
  "{" +:+ json_string "type" +:+ ":" +:+ json_string (c_type c)
  +:+ match c_text c with
      | Some t => "," +:+ json_string "text" +:+ ":" +:+ json_string t
      | None => ""
      end
  +:+ "}".

(** [JSON.stringify(res)] for a result as the handler builds it. *)
Definition stringify_result (res : CallToolResult) : string :=
  "{" +:+ json_string "content" +:+ ":["
  +:+ join_comma (List.map stringify_item (content res)) +:+ "]"
  +:+ (if isError res then "," +:+ json_string "isError" +:+ ":true" else "")
  +:+ "}".

Definition store_arguments_text : string :=
  "{" +:+ json_string "value" +:+ ":7,"
  +:+ json_string "description" +:+ ":" +:+ json_string "demo" +:+ "}".

Definition sum_arguments_text : string :=
  "{" +:+ json_string "from" +:+ ":" +:+ json_string "2025-05-31T12:00:00.000Z" +:+ ","
  +:+ json_string "to" +:+ ":" +:+ json_string "2025-06-01T12:00:00.000Z" +:+ "}".

Definition store_arguments : jsval :=
  JObj [("value", JNum 7); ("description", JStr "demo")].

Definition sum_last_day : jsval :=
  JObj [("from", JStr "2025-05-31T12:00:00.000Z");
        ("to", JStr "2025-06-01T12:00:00.000Z")].

(** [JSON.parse] on the two argument texts of the script. *)
Definition scripted_parse (s : string) : exn + jsval :=
  if String.eqb s store_arguments_text then inr store_arguments
  else if String.eqb s sum_arguments_text then inr sum_last_day
  else inl "SyntaxError: Unexpected token".

Definition store_call : ToolCall :=
  mkToolCall "call_1" (Some (mkFunctionCall (Some "store") (Some store_arguments_text))).

Definition sum_call : ToolCall :=
  mkToolCall "call_2" (Some (mkFunctionCall (Some "sum") (Some sum_arguments_text))).

Definition completion_of (msg : Message) : Completion :=
  mkCompletion (Some [mkChoice (Some msg)]).

(** A model that asks for a store and a sum at once, then answers. *)
Definition store_and_sum_model (k : nat) (messages : list ChatTurn)
    (tools : list OpenAITool) : exn + Completion :=
  match k with
  | O => inr (completion_of (mkMessage None (Some [store_call; sum_call])))
  | _ => inr (completion_of (mkMessage (Some "Stored 7; the sum is 7.") None))
  end.

(** A model that asks for the store, then for the sum, then answers. *)
Definition store_sum_in_turn_model (k : nat) (messages : list ChatTurn)
    (tools : list OpenAITool) : exn + Completion :=
  match k with
  | O => inr (completion_of (mkMessage None (Some [store_call])))
  | 1%nat => inr (completion_of (mkMessage None (Some [sum_call])))
  | _ => inr (completion_of (mkMessage (Some "Stored 7; the sum is 7.") None))
  end.

(** A model that asks for a sum without arguments at every call. *)
Definition looping_model (k : nat) (messages : list ChatTurn)
    (tools : list OpenAITool) : exn + Completion :=
  inr (completion_of
         (mkMessage None
            (Some [mkToolCall "call" (Some (mkFunctionCall (Some "sum") None))]))).

(** A model that fails at its second call. *)
Definition failing_model (k : nat) (messages : list ChatTurn)
    (tools : list OpenAITool) : exn + Completion :=
  match k with
  | O => inr (completion_of (mkMessage None (Some [store_call])))
  | _ => inl "Error: 429 Too Many Requests"
  end.

(** A model whose first completion has no choices. *)
Definition silent_model (k : nat) (messages : list ChatTurn)
    (tools : list OpenAITool) : exn + Completion :=
  inr (mkCompletion (Some [])).

Definition demo_request : jsval :=
  JObj [("message", JStr "Store value 7 called demo, then sum last 24h")].

Definition fresh_world : World Database := mkWorld empty_db [].

(** [POST /api/chat] of the deployment, for a given chat model and
    connection result. *)
Definition demo_chat (connect_result : option exn)
    (model : nat -> list ChatTurn -> list OpenAITool -> exn + Completion)
    : (exn + ChatResponse) * World Database :=
  post_chat Database openai_config connect_result (inr toolsList) model
    (local_tools_call binds_anything server_clock mcp_error_32603) scripted_parse stringify_result
    demo_request fresh_world.

(** ** Histories of requests that can write *)

(** A request that reaches [insertEntry] or [sumEntries], with the reading
    of the clock it would use. *)
Inductive StoreRequest :=
| ToolsCall (now name : string) (args : jsval)
| RestStore (now : string) (req_body : jsval).

Definition serve (g : jsval -> jsval -> Database -> exn + Z) (db : Database)
    (r : StoreRequest) : Database :=
  match r with
  | ToolsCall now name args => snd (CallTool_handler g now name args db)
  | RestStore now req_body => snd (rest_store now req_body db)
  end.

Definition serve_all (g : jsval -> jsval -> Database -> exn + Z)
    (requests : list StoreRequest) (db : Database) : Database :=
  fold_left (serve g) requests db.

(** The ids of the rows are 1, 2, ..., n in insertion order, and the
    AUTOINCREMENT counter is n. *)
Definition consecutive_ids (db : Database) : Prop :=
  List.map e_id (entries db)
  = List.map Z.of_nat (List.seq 1 (List.length (entries db)))
  /\ seq db = Z.of_nat (List.length (entries db)).

(** ** Listing entries: [listEntries] and [GET /api/entries] *)

(** A JS number: the rational it denotes, NaN or an infinity; zero has no
    sign. *)
Inductive jsnum :=
| NFin (q : Q)
| NNaN
| NInf (negative : bool).

Definition Qneg_bool (q : Q) : bool := (Qnum q <? 0)%Z.
Definition Qzero_bool (q : Q) : bool := (Qnum q =? 0)%Z.

(** [Math.min(a, b)] *)
Definition Math_min (a b : jsnum) : jsnum :=
  match a, b with
  | NNaN, _ | _, NNaN => NNaN
  | NInf true, _ | _, NInf true => NInf true
  | NInf false, x | x, NInf false => x
  | NFin x, NFin y => if Qle_bool x y then NFin x else NFin y
  end.

(** [Math.max(a, b)] *)
Definition Math_max (a b : jsnum) : jsnum :=
  match a, b with
  | NNaN, _ | _, NNaN => NNaN
  | NInf false, _ | _, NInf false => NInf false
  | NInf true, x | x, NInf true => x
  | NFin x, NFin y => if Qle_bool x y then NFin y else NFin x
  end.

(** [a - b] *)
Definition num_sub (a b : jsnum) : jsnum :=
  match a, b with
  | NNaN, _ | _, NNaN => NNaN
  | NInf s, NInf s' => if Bool.eqb s s' then NNaN else NInf s
  | NInf s, NFin _ => NInf s
  | NFin _, NInf s => NInf (negb s)
  | NFin x, NFin y => NFin (x - y)
  end.

(** [a * b] *)
Definition num_mul (a b : jsnum) : jsnum :=
  match a, b with
  | NNaN, _ | _, NNaN => NNaN
  | NInf s, NInf s' => NInf (xorb s s')
  | NInf s, NFin x | NFin x, NInf s =>
      if Qzero_bool x then NNaN else NInf (xorb s (Qneg_bool x))
  | NFin x, NFin y => NFin (x * y)
  end.

(** [a / b] *)
Definition num_div (a b : jsnum) : jsnum :=
  match a, b with
  | NNaN, _ | _, NNaN => NNaN
  | NInf _, NInf _ => NNaN
  | NInf s, NFin y => NInf (xorb s (Qneg_bool y))
  | NFin _, NInf _ => NFin 0
  | NFin x, NFin y =>
      if Qzero_bool y
      then if Qzero_bool x then NNaN else NInf (Qneg_bool x)
      else NFin (x / y)
  end.

(** [Math.ceil(a)] *)
Definition Math_ceil (a : jsnum) : jsnum :=
  match a with
  | NFin q => NFin (inject_Z (Qceiling q))
  | _ => a
  end.

(** [!!a] *)
Definition num_truthy (a : jsnum) : bool :=
  match a with
  | NFin q => negb (Qzero_bool q)
  | NNaN => false
  | NInf _ => true
  end.

(** The 64-bit integer that LIMIT and OFFSET accept: a number that is an
    integer in that range. *)
Definition as_sql_integer (a : jsnum) : option Z :=
  match a with
  | NFin q =>
      if (Qnum q mod Zpos (Qden q) =? 0)%Z
         && (- 2 ^ 63 <=? Qnum q / Zpos (Qden q))%Z
         && (Qnum q / Zpos (Qden q) <? 2 ^ 63)%Z
      then Some (Qnum q / Zpos (Qden q))%Z
      else None
  | _ => None
  end.

(** [LIMIT limit OFFSET offset]: a negative limit is no limit, a negative
    offset is none. *)
Definition sql_limit (limit offset : Z) (rows : list Entry) : list Entry :=
  let rest := List.skipn (Z.to_nat offset) rows in
  if (limit <? 0)%Z then rest else List.firstn (Z.to_nat limit) rest.

(** [{ items, page, pageSize, total, pages }] *)
Record Listing := mkListing {
  l_items : list Entry;
  l_page : jsnum;
  l_pageSize : jsnum;
  l_total : Z;
  l_pages : jsnum
}.

Section Listing.

(** The rows of [entries] as [ORDER BY created_at DESC] returns them; the
    order among equal timestamps is the engine's. *)
Variable order_by_created_at_desc : list Entry -> list Entry.

(** What [.all(size, offset)] gives when LIMIT or OFFSET is bound to a
    number that is not a 64-bit integer. *)
Variable stmt_all_other : jsnum -> jsnum -> Database -> exn + list Entry.

(** [Number(s)] for a string. *)
Variable parse_number : string -> jsnum.

(** [listEntries({ page, pageSize })], called with two numbers. *)
Definition listEntries (page pageSize : jsnum) (db : Database) : exn + Listing :=
  let size := Math_max (NFin 1) (Math_min (NFin 100) pageSize) in
  let p := Math_max (NFin 1) page in
  let total := Z.of_nat (List.length (entries db)) in
  let pages := Math_max (NFin 1) (Math_ceil (num_div (NFin (inject_Z total)) size)) in
  let offset := num_mul (num_sub p (NFin 1)) size in
  let rows :=
    match as_sql_integer size, as_sql_integer offset with
    | Some limit, Some skip =>
        inr (sql_limit limit skip (order_by_created_at_desc (entries db)))
    | _, _ => stmt_all_other size offset db
    end in
  match rows with
  | inl e => inl e
  | inr rows => inr (mkListing rows p size total pages)
  end.

(** [Number(v)] for a query parameter that may be missing. *)
Definition Number_ (v : option qval) : jsnum :=
  match v with
  | None => NNaN
  | Some _ => parse_number (String_ v)
  end.

(** [app.get('/api/entries')] *)
Definition get_entries (page pageSize : option qval) (db : Database) : exn + Listing :=
  listEntries
    (if num_truthy (Number_ page) then Number_ page else NFin 1)
    (if num_truthy (Number_ pageSize) then Number_ pageSize else NFin 10)
    db.

End Listing.

(** Newest first, rows of one timestamp in insertion order: one order that
    [ORDER BY created_at DESC] may return. *)
Fixpoint insert_newest (e : Entry) (rows : list Entry) : list Entry :=
  match rows with
  | [] => [e]
  | r :: rest =>
      if String.ltb (e_created_at r) (e_created_at e)
      then e :: r :: rest
      else r :: insert_newest e rest
  end.

Definition newest_first (rows : list Entry) : list Entry :=
  fold_left (fun sorted e => insert_newest e sorted) rows [].

(** The items of a page, none when the statement failed. *)
Definition items_of (r : exn + Listing) : list Entry :=
  match r with
  | inr listing => l_items listing
  | inl _ => []
  end.

(** An event about the session [sid]: its connection arriving or closing. *)
Definition mentions {Transport : Type} (sid : string) (ev : SessionEvent Transport) : Prop :=
  match ev with
  | Sse _ sid' _ => sid' = sid
  | Closed sid' => sid' = sid
  end.

(** ** [Number(s)] for a string *)

(** [num / den] rounded to the nearest integer, a tie to the even one. *)
Definition round_half_even (num den : Z) : Z :=
  let q := num / den in
  let r := num mod den in
  if (den <? 2 * r) || (2 * r =? den) && Z.odd q then q + 1 else q.

(** The Number value for the rational [num / den], [0 <= num], [0 < den]:
    the nearest double, a tie to the even significand; 53 bits of
    significand, exponents down to the subnormals at 2^-1074, and Infinity
    from 2^1024 on. *)
Definition Number_of_rational (num den : Z) : jsnum :=
  if num =? 0 then NFin 0
  else
    let e0 := Z.log2 num - Z.log2 den in
    let above := if 0 <=? e0 then den * 2 ^ e0 <=? num else den <=? num * 2 ^ (- e0) in
    let e := if above then e0 else e0 - 1 in
    let p := Z.max (e - 52) (- 1074) in
    if 0 <=? p then
      let m := round_half_even num (den * 2 ^ p) in
      if 2 ^ 1024 <=? m * 2 ^ p then NInf false else NFin (inject_Z (m * 2 ^ p))
    else
      NFin (Qred (Qmake (round_half_even (num * 2 ^ (- p)) den) (Z.to_pos (2 ^ (- p))))).

Definition digit_value (radix : Z) (a : ascii) : option Z :=
  let n := Z.of_N (N_of_ascii a) in
  let v := if (48 <=? n) && (n <=? 57) then n - 48
           else if (97 <=? n) && (n <=? 122) then n - 87
           else if (65 <=? n) && (n <=? 90) then n - 55
           else radix in
  if v <? radix then Some v else None.

(** Reads the digits at the front of [s]: the number read after [acc], how
    many digits there were, and what follows them. *)
Fixpoint read_digits (radix : Z) (s : string) (acc : Z) (count : nat)
    : Z * nat * string :=
  match s with
  | EmptyString => (acc, count, s)
  | String a r =>
      match digit_value radix a with
      | Some v => read_digits radix r (acc * radix + v) (S count)
      | None => (acc, count, s)
      end
  end.

(** The digits of a [0x], [0o] or [0b] literal, up to the end of the text. *)
Definition radix_literal (radix : Z) (digits : string) : jsnum :=
  match read_digits radix digits 0 O with
  | (v, S _, EmptyString) => Number_of_rational v 1
  | _ => NNaN
  end.

(** The Number value for [digits * 10 ^ scale]; a scale that is far out
    gives Infinity or 0 whatever the digits are. *)
Definition scaled (digits scale : Z) : jsnum :=
  if digits =? 0 then NFin 0
  else if 400 <? scale then NInf false
  else if scale + Z.log2 digits <? - 1100 then NFin 0
  else if 0 <=? scale then Number_of_rational (digits * 10 ^ scale) 1
  else Number_of_rational digits (10 ^ (- scale)).

(** The exponent part, if there is one, and what follows it; [None] when
    an [e] is not followed by digits. *)
Definition read_exponent (s : string) : option (Z * string) :=
  match s with
  | String c r =>
      if Ascii.eqb c "e" || Ascii.eqb c "E" then
        let '(negative, r') :=
          match r with
          | String "+" r' => (false, r')
          | String "-" r' => (true, r')
          | _ => (false, r)
          end in
        match read_digits 10 r' 0 O with
        | (ex, S _, rest) => Some (if negative then - ex else ex, rest)
        | _ => None
        end
      else Some (0, s)
  | EmptyString => Some (0, s)
  end.

(** [Infinity], or digits with an optional fraction and exponent: [12],
    [1.5], [5.], [.5], [2e0]. *)
Definition unsigned_decimal (s : string) : jsnum :=
  if String.eqb s "Infinity" then NInf false
  else
    let '(int_part, int_count, r1) := read_digits 10 s 0 O in
    let '(digits, frac_count, r2) :=
      match r1 with
      | String "." r => read_digits 10 r int_part O
      | _ => (int_part, O, r1)
      end in
    match (int_count + frac_count)%nat, read_exponent r2 with
    | S _, Some (ex, EmptyString) => scaled digits (ex - Z.of_nat frac_count)
    | _, _ => NNaN
    end.

Definition negate (a : jsnum) : jsnum :=
  match a with
  | NFin q => NFin (- q)
  | NNaN => NNaN
  | NInf s => NInf (negb s)
  end.

(** [Number(s)] for a string: white space around the text is dropped, the
    empty text is 0, a literal is decimal with an optional sign or in radix
    16, 8 or 2 without one, and any other text is NaN. *)
Definition StringToNumber (str : string) : jsnum :=
  match trim str with
  | EmptyString => NFin 0
  | String "0" (String c r) as s =>
      if Ascii.eqb c "x" || Ascii.eqb c "X" then radix_literal 16 r
      else if Ascii.eqb c "o" || Ascii.eqb c "O" then radix_literal 8 r
      else if Ascii.eqb c "b" || Ascii.eqb c "B" then radix_literal 2 r
      else unsigned_decimal s
  | String "+" r => unsigned_decimal r
  | String "-" r => negate (unsigned_decimal r)
  | s => unsigned_decimal s
  end.

(** A statement that refuses a LIMIT or OFFSET that is not an integer. *)
Definition refuses_mismatch : jsnum -> jsnum -> Database -> exn + list Entry :=
  fun _ _ _ => inl "SqliteError: datatype mismatch".

(** Three rows, stored in this order. *)
Definition three_rows : Database :=
  snd (insertEntry "2025-06-03T08:00:00.000Z" 3 "third"
    (snd (insertEntry "2025-06-01T08:00:00.000Z" 1 "first"
      (snd (insertEntry "2025-06-02T08:00:00.000Z" 2 "second" empty_db))))).

(** ** Reading the trace of a chat request *)

(** The conversations sent to the chat model, oldest first. *)
Definition model_inputs (effects : list Effect) : list (list ChatTurn) :=
  flat_map (fun ev => match ev with ECreate messages _ => [messages] | _ => [] end) effects.

(** [next] is [prev] followed by an assistant turn and tool turns. *)
Definition extends_by_round (prev next : list ChatTurn) : Prop :=
  exists content tool_calls toolTurns,
    next = prev ++ AssistantTurn content tool_calls :: toolTurns
    /\ Forall (fun turn => tool_call_id_of turn <> None) toolTurns.

(** Each conversation extends the one before it by one round. *)
Fixpoint grows (prev : list ChatTurn) (inputs : list (list ChatTurn)) : Prop :=
  match inputs with
  | [] => True
  | next :: rest => extends_by_round prev next /\ grows next rest
  end.

(** The effects of the loop: calls of the model and of tools. *)
Definition loop_effect (ev : Effect) : bool := is_create ev || is_call_tool ev.

(** A computation that only adds effects that [allowed] accepts. *)
Definition emits_only {Sess A : Type} (allowed : Effect -> bool)
    (m : M (World Sess) A) : Prop :=
  forall w r w',
    m w = (r, w') ->
    exists effects,
      trace w' = trace w ++ effects /\ Forall (fun ev => allowed ev = true) effects.

(** A computation in which a rejected tools/call request is the last thing
    that happens: it is thrown on. *)
Definition tool_failure_aborts {Sess A : Type} (m : M (World Sess) A) : Prop :=
  forall w r w' name arguments e,
    m w = (r, w') ->
    In (ECallTool name arguments (inl e)) (trace w') ->
    In (ECallTool name arguments (inl e)) (trace w) \/ r = inl e.

(** A model that answers at once. *)
Definition plain_model (k : nat) (messages : list ChatTurn)
    (tools : list OpenAITool) : exn + Completion :=
  inr (completion_of (mkMessage (Some "Nothing to do.") None)).

(** A tool session that rejects every tools/call request. *)
Definition broken_session (name : option string) (arguments : jsval) (db : Database)
    : (exn + CallToolResult) * Database :=
  (inl "Error: SSE connection closed", db).

Definition no_key_config : Config := mkConfig None None None None.

(** * Properties *)

Example stringify_entry_ex :
  JSON_stringify_entry (mkEntry 1 5 "hello" "2025-06-01T12:00:00.000Z")
  = "{" +:+ dquote +:+ "id" +:+ dquote +:+ ":1,"
    +:+ dquote +:+ "value" +:+ dquote +:+ ":5,"
    +:+ dquote +:+ "description" +:+ dquote +:+ ":" +:+ dquote +:+ "hello" +:+ dquote +:+ ","
    +:+ dquote +:+ "created_at" +:+ dquote +:+ ":"
    +:+ dquote +:+ "2025-06-01T12:00:00.000Z" +:+ dquote +:+ "}".
Proof. reflexivity. Qed.

Example trim_ex : trim "  a b
 " = "a b".
Proof. reflexivity. Qed.

(** ** The entry store *)

Lemma sum_values_app (a b : list Entry) :
  sum_values (a ++ b) = sum_values a + sum_values b.
Proof.
  induction a as [|e a IH]; simpl; [reflexivity|].
  rewrite IH. lia.
Qed.

Lemma sum_int64_exact (rows : list Entry) (acc n : Z) :
  sum_int64 acc rows = Some n -> n = acc + sum_values rows.
Proof.
  revert acc. induction rows as [|e rows IH]; simpl; intros acc H.
  - injection H as <-. lia.
  - destruct (in_int64 (acc + e_value e)); [| discriminate].
    rewrite (IH _ H). lia.
Qed.

Lemma to_double_exact (n : Z) : Z.abs n <= 2 ^ 53 -> to_double n = n.
Proof.
  intros H. unfold to_double.
  destruct (Z.leb_spec (Z.abs n) (2 ^ 53)); [reflexivity | lia].
Qed.

Lemma Number_toString_exact (n : Z) : Z.abs n <= 2 ^ 53 -> Number_toString n = decimal n.
Proof.
  intros H. unfold Number_toString.
  destruct (Z.leb_spec (Z.abs n) (2 ^ 53)); [reflexivity | lia].
Qed.

Lemma sums_in_int64_total (rows : list Entry) :
  sums_in_int64 rows = true ->
  forallb stored_as_integer rows = true /\ sum_int64 0 rows = Some (sum_values rows).
Proof.
  unfold sums_in_int64. intros H. apply andb_true_iff in H as [H1 H2].
  split; [exact H1 |].
  destruct (sum_int64 0 rows) as [n|] eqn:E; [| discriminate].
  rewrite (sum_int64_exact _ _ _ E). reflexivity.
Qed.

(** No row in range: [COALESCE] answers 0. *)
Lemma sumEntries_none g (from to : string) (db : Database) :
  List.filter (in_range from to) (entries db) = [] ->
  sumEntries g (JStr from) (JStr to) db = inr 0.
Proof. intros H. unfold sumEntries. rewrite H. reflexivity. Qed.

(** INTEGER rows that add up in 64 bits: the total, as a double. *)
Lemma sumEntries_integers g (from to : string) (db : Database) :
  sums_in_int64 (List.filter (in_range from to) (entries db)) = true ->
  sumEntries g (JStr from) (JStr to) db = inr (to_double (range_total from to db)).
Proof.
  intros H. apply sums_in_int64_total in H as [Hint Hsum].
  unfold sumEntries, range_total.
  destruct (List.filter (in_range from to) (entries db)) as [|e rows] eqn:E.
  - reflexivity.
  - rewrite Hint, Hsum. f_equal.
    destruct (Z.eqb_spec (to_double (sum_values (e :: rows))) 0) as [H0 | H0];
      congruence.
Qed.

(** INTEGER rows whose running sum leaves the 64 bits: the statement
    throws. *)
Lemma sumEntries_overflow g (from to : string) (db : Database) :
  forallb stored_as_integer (List.filter (in_range from to) (entries db)) = true ->
  sum_int64 0 (List.filter (in_range from to) (entries db)) = None ->
  sumEntries g (JStr from) (JStr to) db = inl "SqliteError: integer overflow".
Proof.
  intros Hint Hsum. unfold sumEntries.
  destruct (List.filter (in_range from to) (entries db)) as [|e rows] eqn:E.
  - discriminate.
  - rewrite Hint, Hsum. reflexivity.
Qed.

Lemma filter_insert (now : string) (v : Z) (d : string) (db : Database)
    (from to : string) :
  List.filter (in_range from to) (entries (snd (insertEntry now v d db)))
  = List.filter (in_range from to) (entries db)
    ++ (if String.leb from now && String.leb now to
        then [mkEntry (seq db + 1) v d now] else []).
Proof.
  unfold insertEntry. simpl. rewrite List.filter_app. simpl.
  unfold in_range at 2. simpl.
  destruct (String.leb from now && String.leb now to); reflexivity.
Qed.

Lemma range_total_insert (now : string) (v : Z) (d : string) (db : Database)
    (from to : string) :
  range_total from to (snd (insertEntry now v d db))
  = range_total from to db
    + (if String.leb from now && String.leb now to then v else 0).
Proof.
  unfold range_total. rewrite filter_insert, sum_values_app.
  destruct (String.leb from now && String.leb now to); simpl; lia.
Qed.




(** ** The tool-protocol handler and the REST endpoints *)

Lemma truthy_absent_or_empty (v : jsval) : absent_or_empty v -> truthy v = false.
Proof. intros [-> | ->]; reflexivity. Qed.

Lemma truthy_text (s : string) : s <> "" -> truthy (JStr s) = true.
Proof.
  intros H. simpl. destruct (String.eqb_spec s ""); [contradiction | reflexivity].
Qed.

Lemma handler_sum_unfold g (now : string) (args : jsval) (db : Database) :
  CallTool_handler g now "sum" args db
  = if negb (truthy (prop (or_empty args) "from"))
       || negb (truthy (prop (or_empty args) "to"))
    then (inr (text_result "from and to are required (ISO datetime)" true), db)
    else match sumEntries g (prop (or_empty args) "from") (prop (or_empty args) "to") db with
         | inl e => (inl e, db)
         | inr total => (inr (text_result (Number_toString total) false), db)
         end.
Proof. reflexivity. Qed.




(** C7: a tool name other than "store" and "sum" is answered by an error
    result whose text is "Unknown tool: " followed by that name. *)
Theorem unknown_tool g (now : string) (name : string) (args : jsval) (db : Database) :
  name <> "store" -> name <> "sum" ->
  CallTool_handler g now name args db
  = (inr (text_result ("Unknown tool: " +:+ name) true), db)
  /\ isError (text_result ("Unknown tool: " +:+ name) true) = true.
Proof.
  intros Hstore Hsum. unfold CallTool_handler.
  destruct (String.eqb_spec name "store"); [contradiction |].
  destruct (String.eqb_spec name "sum"); [contradiction |].
  split; reflexivity.
Qed.

Lemma unknown_tool_witness :
  CallTool_handler binds_anything "2025-06-01T12:00:00.000Z" "delete"
    (JObj [("id", JNum 1)]) empty_db
  = (inr (text_result "Unknown tool: delete" true), empty_db)
  /\ isError (text_result "Unknown tool: delete" true) = true.
Proof.
  apply (unknown_tool binds_anything "2025-06-01T12:00:00.000Z" "delete");
    discriminate.
Defined.

Lemma rest_store_unfold (now : string) (payload : jsval) (db : Database) :
  rest_store now payload db
  = let value := prop (or_empty payload) "value" in
    let description := prop (or_empty payload) "description" in
    if negb (has_type TNumber value) || negb (Number_isInteger value)
    then (mkResponse 400 (ErrorBody "value must be an integer"), db)
    else if negb (has_type TString description) || blank (string_of description)
    then (mkResponse 400 (ErrorBody "description is required"), db)
    else (mkResponse 200
            (EntryBody (fst (insertEntry now (integer_of value) (string_of description) db))),
          snd (insertEntry now (integer_of value) (string_of description) db)).
Proof. reflexivity. Qed.

Lemma handler_store_unfold g (now : string) (payload : jsval) (db : Database) :
  CallTool_handler g now "store" payload db
  = let value := prop (or_empty payload) "value" in
    let description := prop (or_empty payload) "description" in
    if negb (has_type TNumber value) || negb (Number_isInteger value)
    then (inr (text_result "value must be integer" true), db)
    else if negb (has_type TString description) || blank (string_of description)
    then (inr (text_result "description is required" true), db)
    else (inr (text_result
                 (JSON_stringify_entry
                    (fst (insertEntry now (integer_of value) (string_of description) db)))
                 false),
          snd (insertEntry now (integer_of value) (string_of description) db)).
Proof. reflexivity. Qed.

(** What the store tool does once the check of [value] has passed: a
    description that is absent, not a string or blank is answered by
    "description is required"; otherwise the entry is inserted and the text
    is its serialization. *)
Lemma store_tool_after_value_check g (now : string) (payload : jsval) (db : Database) :
  let value := prop (or_empty payload) "value" in
  let description := prop (or_empty payload) "description" in
  has_type TNumber value && Number_isInteger value = true ->
  (has_type TString description = false \/ blank (string_of description) = true ->
   CallTool_handler g now "store" payload db
   = (inr (text_result "description is required" true), db))
  /\ (has_type TString description = true -> blank (string_of description) = false ->
      CallTool_handler g now "store" payload db
      = (inr (text_result
                (JSON_stringify_entry
                   (fst (insertEntry now (integer_of value) (string_of description) db)))
                false),
         snd (insertEntry now (integer_of value) (string_of description) db))).
Proof.
  intros value description Hv.
  apply andb_true_iff in Hv as [Hty Hint].
  rewrite handler_store_unfold. fold value description. cbv zeta.
  rewrite Hty, Hint. simpl negb. simpl orb. cbv iota.
  split.
  - intros [H | H]; rewrite H; simpl; [reflexivity |].
    rewrite orb_true_r. reflexivity.
  - intros H1 H2. rewrite H1, H2. reflexivity.
Qed.

(** C3 at its failing input: for the arguments {value: 3.5, description:
    "x"} the tools/call handler answers "value must be integer", which is
    not the text "value must be an integer" that the REST endpoint gives
    for the same payload. *)
Theorem store_value_error_text g (now : string) (db : Database) :
  CallTool_handler g now "store"
    (JObj [("value", JNum (7 # 2)); ("description", JStr "x")]) db
  = (inr (text_result "value must be integer" true), db)
  /\ "value must be integer" <> "value must be an integer"
  /\ rest_store now (JObj [("value", JNum (7 # 2)); ("description", JStr "x")]) db
     = (mkResponse 400 (ErrorBody "value must be an integer"), db).
Proof. repeat split. discriminate. Qed.




(** ** The session registry *)

Section SessionFacts.

Context {Transport : Type}.
Implicit Types (transports : gmap string Transport) (events : list (SessionEvent Transport)).

Lemma session_step_lookup requiredToken transports ev (sid : string) (t : Transport) :
  session_step requiredToken transports ev !! sid = Some t ->
  transports !! sid = Some t \/ exists req, ev = Sse req sid t.
Proof.
  destruct ev as [req sid' t' | sid']; simpl.
  - unfold get_sse.
    match goal with
    | |- context [if ?c then Unauthorized else _] => destruct c
    end; [auto |].
    destruct (decide (sid' = sid)) as [-> | Hne].
    + rewrite lookup_insert_eq. intros [= ->]. eauto.
    + rewrite lookup_insert_ne by done. auto.
  - unfold on_close. destruct (decide (sid' = sid)) as [-> | Hne].
    + rewrite lookup_delete_eq. discriminate.
    + rewrite lookup_delete_ne by done. auto.
Qed.

Lemma session_step_absent requiredToken transports ev (sid : string) :
  transports !! sid = None -> ~ issues sid ev ->
  session_step requiredToken transports ev !! sid = None.
Proof.
  intros Hnone Hev.
  destruct (session_step requiredToken transports ev !! sid) as [t|] eqn:E; [| done].
  apply session_step_lookup in E as [E | [req ->]]; [congruence |].
  exfalso. apply Hev. reflexivity.
Qed.

Lemma fold_lookup requiredToken events transports (sid : string) (t : Transport) :
  fold_left (session_step requiredToken) events transports !! sid = Some t ->
  transports !! sid = Some t \/ exists req, In (Sse req sid t) events.
Proof.
  revert transports. induction events as [|ev events IH]; intros transports; simpl.
  - auto.
  - intros H. apply IH in H as [H | [req H]].
    + apply session_step_lookup in H as [H | [req ->]]; eauto.
    + eauto.
Qed.

Lemma fold_absent requiredToken events transports (sid : string) :
  transports !! sid = None -> ~ Exists (issues sid) events ->
  fold_left (session_step requiredToken) events transports !! sid = None.
Proof.
  revert transports. induction events as [|ev events IH]; intros transports Hnone Hev; simpl.
  - exact Hnone.
  - apply IH.
    + apply session_step_absent; [exact Hnone |].
      intros H. apply Hev. constructor. exact H.
    + intros H. apply Hev. apply Exists_cons_tl. exact H.
Qed.

Lemma post_messages_absent transports (sid : string) :
  transports !! sid = None ->
  post_messages transports (Some (QStr sid)) = Rejected 400 "No transport for sessionId".
Proof. intros H. unfold post_messages. rewrite H. reflexivity. Qed.

(** C5: a control message is either routed to the transport that a
    connection registered under exactly its session id, or rejected with
    status 400; a session id that no connection was given, and one whose
    connection has closed, is rejected. *)
Theorem dispatch_by_session_id requiredToken events (sessionId : option qval) :
  ((exists sid t req,
       sessionId = Some (QStr sid)
       /\ registry_after requiredToken events !! sid = Some t
       /\ In (Sse req sid t) events
       /\ post_messages (registry_after requiredToken events) sessionId = Routed t)
   \/ exists error,
       post_messages (registry_after requiredToken events) sessionId = Rejected 400 error)
  /\ (forall sid : string,
        ~ Exists (issues sid) events ->
        exists error,
          post_messages (registry_after requiredToken events) (Some (QStr sid))
          = Rejected 400 error)
  /\ (forall (sid : string) before after,
        events = before ++ Closed sid :: after ->
        ~ Exists (issues sid) after ->
        exists error,
          post_messages (registry_after requiredToken events) (Some (QStr sid))
          = Rejected 400 error).
Proof.
  split; [| split].
  - destruct sessionId as [[sid | items | fields] |]; simpl; eauto.
    destruct (registry_after requiredToken events !! sid) as [t|] eqn:E; [| eauto].
    left. pose proof E as E'. apply fold_lookup in E' as [E' | [req Hin]].
    + rewrite lookup_empty in E'. discriminate.
    + exists sid, t, req. auto.
  - intros sid Hnever. eexists. apply post_messages_absent.
    apply fold_absent; [apply lookup_empty | exact Hnever].
  - intros sid before after -> Hafter. eexists. apply post_messages_absent.
    unfold registry_after. rewrite fold_left_app. simpl.
    apply fold_absent; [| exact Hafter].
    unfold on_close. apply lookup_delete_eq.
Qed.

End SessionFacts.

Lemma dispatch_by_session_id_witness :
  post_messages
    (registry_after (Some "secret")
       [Sse (mkSseRequest (Some "Bearer secret") None) "a1" 1%nat;
        Sse (mkSseRequest None (Some (QStr "secret"))) "b2" 2%nat;
        Closed "a1"])
    (Some (QStr "zz")) = Rejected 400 "No transport for sessionId"
  /\ post_messages
       (registry_after (Some "secret")
          [Sse (mkSseRequest (Some "Bearer secret") None) "a1" 1%nat;
           Sse (mkSseRequest None (Some (QStr "secret"))) "b2" 2%nat;
           Closed "a1"])
       (Some (QStr "a1")) = Rejected 400 "No transport for sessionId".
Proof.
  pose (events := [Sse (mkSseRequest (Some "Bearer secret") None) "a1" 1%nat;
                   Sse (mkSseRequest None (Some (QStr "secret"))) "b2" 2%nat;
                   Closed "a1"]).
  assert (Hnever : ~ Exists (issues "zz") events).
  { intros H. repeat (apply Exists_cons in H as [H | H]; [simpl in H; try discriminate; try contradiction |]).
    inversion H. }
  assert (Hclosed : ~ Exists (issues (Transport := nat) "a1") []).
  { intros H. inversion H. }
  split.
  - destruct (proj1 (proj2 (dispatch_by_session_id (Some "secret") events None))
                "zz" Hnever) as [error H].
    fold events. rewrite H. f_equal.
    change (Rejected 400 error) with (@Rejected nat 400 error) in H.
    vm_compute in H. injection H as <-. reflexivity.
  - destruct (proj2 (proj2 (dispatch_by_session_id (Some "secret") events None))
                "a1" [Sse (mkSseRequest (Some "Bearer secret") None) "a1" 1%nat;
                      Sse (mkSseRequest None (Some (QStr "secret"))) "b2" 2%nat]
                [] eq_refl Hclosed) as [error H].
    fold events. rewrite H. f_equal.
    vm_compute in H. injection H as <-. reflexivity.
Defined.

(** ** The chat endpoint *)

Section ChatFacts.

Variable Sess : Type.
Variable config : Config.
Variable connect_result : option exn.
Variable listed_tools : exn + list ToolDescriptor.
Variable create : nat -> list ChatTurn -> list OpenAITool -> exn + Completion.
Variable tools_call : option string -> jsval -> Sess -> (exn + CallToolResult) * Sess.
Variable JSON_parse : string -> exn + jsval.
Variable JSON_stringify_result : CallToolResult -> string.

#[local] Abbreviation flatten := (flatten_result JSON_stringify_result).
#[local] Abbreviation call_tool := (callMcpTool Sess tools_call JSON_stringify_result).
#[local] Abbreviation run_calls :=
  (run_tool_calls Sess tools_call JSON_parse JSON_stringify_result).
#[local] Abbreviation rounds :=
  (chat_rounds Sess create tools_call JSON_parse JSON_stringify_result).
#[local] Abbreviation ask := (chat_completions_create Sess create).
#[local] Abbreviation chat :=
  (post_chat Sess config connect_result listed_tools create tools_call
     JSON_parse JSON_stringify_result).
#[local] Abbreviation args_of := (call_args JSON_parse).

Implicit Types (w : World Sess) (tc : ToolCall) (toolLogs : list ToolLog)
  (toolMessages messages : list ChatTurn).

Lemma model_calls_emit (ev : Effect) w :
  model_calls (emit Sess ev w)
  = (model_calls w + if is_create ev then 1 else 0)%nat.
Proof.
  unfold model_calls, emit. simpl.
  rewrite List.filter_app, List.length_app. simpl.
  destruct (is_create ev); reflexivity.
Qed.

Lemma called_tools_app (a b : list Effect) :
  called_tools a ++ called_tools b = called_tools (a ++ b).
Proof. unfold called_tools. symmetry. apply flat_map_app. Qed.

(** One iteration of the [for] loop whose tool call is answered. *)
Lemma run_tool_calls_answered tc (rest : list ToolCall) toolLogs toolMessages w
    (args : jsval) (res : CallToolResult) (session' : Sess) :
  args_of tc = inr args ->
  tools_call (call_name tc) (or_empty args) (session w) = (inr res, session') ->
  run_calls (tc :: rest) toolLogs toolMessages w
  = run_calls rest
      (toolLogs ++ [mkToolLog (call_name tc) args (text (flatten res))])
      (toolMessages ++ [ToolTurn (text (flatten res)) (tc_id tc)])
      (emit Sess (ECallTool (call_name tc) (or_empty args) (inr res))
         (mkWorld session' (trace w))).
Proof.
  intros Hargs Hcall. simpl.
  unfold bind at 1. unfold of_result at 1. rewrite Hargs.
  unfold bind at 1. unfold callMcpTool, bind at 1, mcp_request, ret.
  rewrite Hcall. reflexivity.
Qed.

(** The calls of one round are made in the order of [toolCalls], and the
    logs and the tool turns follow that order. *)
Lemma run_tool_calls_ordered (toolCalls : list ToolCall) toolLogs toolMessages w
    (toolLogs' : list ToolLog) (toolMessages' : list ChatTurn) (w' : World Sess) :
  run_calls toolCalls toolLogs toolMessages w = (inr (toolLogs', toolMessages'), w') ->
  exists newLogs newMessages newEffects,
    toolLogs' = toolLogs ++ newLogs
    /\ toolMessages' = toolMessages ++ newMessages
    /\ trace w' = trace w ++ newEffects
    /\ List.map name newLogs = List.map call_name toolCalls
    /\ called_tools newEffects = List.map call_name toolCalls
    /\ List.map tool_call_id_of newMessages = List.map (fun tc => Some (tc_id tc)) toolCalls
    /\ List.map output newLogs = List.map content_of newMessages
    /\ model_calls w' = model_calls w.
Proof.
  revert toolLogs toolMessages w.
  induction toolCalls as [|tc rest IH]; intros toolLogs toolMessages w.
  - simpl. unfold ret. intros [= <- <- <-].
    exists [], [], []. rewrite !app_nil_r. repeat split; reflexivity.
  - destruct (args_of tc) as [e | args] eqn:Hargs.
    { simpl. unfold bind at 1, of_result at 1. rewrite Hargs. discriminate. }
    destruct (tools_call (call_name tc) (or_empty args) (session w))
      as [[e | res] session'] eqn:Hcall.
    { simpl. unfold bind at 1, of_result at 1. rewrite Hargs.
      unfold bind at 1. unfold callMcpTool, bind at 1, mcp_request.
      rewrite Hcall. discriminate. }
    rewrite (run_tool_calls_answered _ _ _ _ _ _ _ _ Hargs Hcall).
    intros H. apply IH in H
      as (newLogs & newMessages & newEffects & -> & -> & Htr & Hn & Hc & Hid & Hout & Hm).
    exists (mkToolLog (call_name tc) args (text (flatten res)) :: newLogs),
      (ToolTurn (text (flatten res)) (tc_id tc) :: newMessages),
      (ECallTool (call_name tc) (or_empty args) (inr res) :: newEffects).
    rewrite <- !app_assoc. simpl in Htr. rewrite <- app_assoc in Htr. simpl in Htr.
    repeat split; simpl; try congruence.
    rewrite Hm, model_calls_emit. simpl. unfold model_calls. simpl. lia.
Qed.

(** When every call is well formed and answered, the round returns. *)
Lemma run_tool_calls_returns (toolCalls : list ToolCall) toolLogs toolMessages w :
  (forall tool args session, exists res session',
      tools_call (Some tool) args session = (inr res, session')) ->
  Forall (well_formed_call JSON_parse) toolCalls ->
  exists toolLogs' toolMessages' w',
    run_calls toolCalls toolLogs toolMessages w = (inr (toolLogs', toolMessages'), w').
Proof.
  intros Htools Hwf. revert toolLogs toolMessages w.
  induction Hwf as [|tc rest [[tool Hname] [args Hargs]] _ IH];
    intros toolLogs toolMessages w.
  - simpl. unfold ret. eauto.
  - destruct (Htools tool (or_empty args) (session w)) as (res & session' & Hcall).
    rewrite <- Hname in Hcall.
    rewrite (run_tool_calls_answered _ _ _ _ _ _ _ _ Hargs Hcall). apply IH.
Qed.

(** One round of the loop whose tool calls return: the next call of the
    chat model decides how it goes on. *)
Lemma chat_rounds_round (n : nat) (model : string) (tools : list OpenAITool) messages
    (completion : Completion) toolLogs w (msg : Message) tc (tcs : list ToolCall)
    (toolLogs' : list ToolLog) (toolMessages : list ChatTurn) (w1 : World Sess) :
  first_message completion = Some msg ->
  m_tool_calls msg = Some (tc :: tcs) ->
  run_calls (tc :: tcs) toolLogs [] w = (inr (toolLogs', toolMessages), w1) ->
  rounds (S n) model tools messages completion toolLogs w
  = let content :=
      if is_set (m_content msg) then default "" (m_content msg) else "" in
    let messages' :=
      messages ++ [AssistantTurn content (m_tool_calls msg)] ++ toolMessages in
    match create (model_calls w1) messages' tools with
    | inr completion' =>
        rounds n model tools messages' completion' toolLogs'
          (emit Sess (ECreate messages' (inr completion')) w1)
    | inl e => (inl e, emit Sess (ECreate messages' (inl e)) w1)
    end.
Proof.
  intros Hmsg Hcalls Hrun.
  cbn [chat_rounds]. rewrite Hmsg, Hcalls.
  change (default [] (Some (tc :: tcs))) with (tc :: tcs). cbv iota.
  unfold bind at 1. rewrite Hrun.
  unfold bind at 1. unfold chat_completions_create.
  cbv beta zeta. destruct (create _ _ _); reflexivity.
Qed.

(** The request once its messages are accepted, the client is built, the
    session is open and the tools are listed. *)
Lemma post_chat_started (req_body : jsval) w messages (t : ToolDescriptor)
    (ts : list ToolDescriptor) :
  usable_messages (request_messages req_body) = Some messages ->
  createOpenAIClient config = None ->
  connect_result = None ->
  listed_tools = inr (t :: ts) ->
  chat req_body w
  = let w1 := emit Sess EListTools (emit Sess EConnect w) in
    let tools := toOpenAITools (t :: ts) in
    let (r, w2) :=
      bind (ask messages tools)
        (fun completion =>
           rounds MAX_TOOL_ITERATIONS (DEFAULT_MODEL config) tools messages completion [])
        w1 in
    (inr (match r with
          | inr response => response
          | inl e => mkChatResponse 500 (Failure "chat_failed" (Some e))
          end),
     emit Sess EClose w2).
Proof.
  intros Hmessages Hclient Hconnect Hlist.
  unfold post_chat, catch. rewrite Hmessages, Hclient.
  unfold bind at 1. unfold of_result at 1.
  unfold bind at 1. unfold connectMcpClient at 1. rewrite Hconnect.
  unfold finally. unfold bind at 1. unfold listMcpTools at 1. rewrite Hlist.
  cbv zeta.
  destruct (bind _ _ _) as [[e | response] w2]; reflexivity.
Qed.

(** A model that asks for tools at every call keeps the loop going until
    the rounds are used up: each round makes one more call of the model. *)
Lemma chat_rounds_always_tools (n : nat) (model : string) (tools : list OpenAITool)
    messages (completion : Completion) toolLogs w :
  (forall k msgs tls, exists c,
      create k msgs tls = inr c /\ requests_tools JSON_parse c) ->
  (forall tool args session, exists res session',
      tools_call (Some tool) args session = (inr res, session')) ->
  requests_tools JSON_parse completion ->
  exists toolLogs' w',
    rounds n model tools messages completion toolLogs w
    = (inr (stopped model toolLogs'), w')
    /\ model_calls w' = (model_calls w + n)%nat
    /\ (List.length toolLogs + n <= List.length toolLogs')%nat.
Proof.
  intros Hmodel Htools. revert messages completion toolLogs w.
  induction n as [|n IH]; intros messages completion toolLogs w Hreq.
  - exists toolLogs, w. simpl. unfold ret. repeat split; lia.
  - destruct Hreq as (msg & tc & tcs & Hmsg & Hcalls & Hwf).
    destruct (run_tool_calls_returns (tc :: tcs) toolLogs [] w Htools Hwf)
      as (toolLogs1 & toolMessages & w1 & Hrun).
    rewrite (chat_rounds_round _ _ _ _ _ _ _ _ _ _ _ _ _ Hmsg Hcalls Hrun). cbv zeta.
    apply run_tool_calls_ordered in Hrun
      as (newLogs & _ & _ & -> & _ & _ & Hnames & _ & _ & _ & Hcount).
    match goal with
    | |- context [create ?k ?m ?t] => destruct (Hmodel k m t) as (c & -> & Hc)
    end.
    match goal with
    | |- context [chat_rounds _ _ _ _ _ n model tools ?m c ?l ?w0] =>
        destruct (IH m c l w0 Hc) as (toolLogs' & w' & -> & Hcalls' & Hlen)
    end.
    exists toolLogs', w'. split; [reflexivity |].
    rewrite model_calls_emit, Hcount in Hcalls'. simpl in Hcalls'.
    rewrite List.length_app in Hlen.
    assert (List.length newLogs = S (List.length tcs)) as Hnew.
    { rewrite <- (List.length_map name), Hnames, List.length_map. reflexivity. }
    split; lia.
Qed.

(** When every call of the model and every tool call is answered, the loop
    ends with a reply of status 200, whatever the error flags of the tool
    results. *)
Lemma chat_rounds_replies (n : nat) (model : string) (tools : list OpenAITool)
    messages (completion : Completion) toolLogs w :
  (forall k msgs tls, exists c,
      create k msgs tls = inr c
      /\ forall msg, first_message c = Some msg ->
           Forall (well_formed_call JSON_parse) (default [] (m_tool_calls msg))) ->
  (forall tool args session, exists res session',
      tools_call (Some tool) args session = (inr res, session')) ->
  (forall msg, first_message completion = Some msg ->
     Forall (well_formed_call JSON_parse) (default [] (m_tool_calls msg))) ->
  exists content toolLogs' w',
    rounds n model tools messages completion toolLogs w
    = (inr (mkChatResponse 200 (Reply content model toolLogs')), w').
Proof.
  intros Hmodel Htools. revert messages completion toolLogs w.
  induction n as [|n IH]; intros messages completion toolLogs w Hwf.
  - simpl. unfold ret, stopped. eauto.
  - destruct (first_message completion) as [msg|] eqn:Hmsg.
    2: { simpl. rewrite Hmsg. unfold ret, stopped. eauto. }
    specialize (Hwf msg eq_refl).
    destruct (m_tool_calls msg) as [[|tc tcs]|] eqn:Hcalls.
    1, 3: simpl; rewrite Hmsg, Hcalls; unfold ret; simpl; eauto.
    simpl in Hwf.
    destruct (run_tool_calls_returns (tc :: tcs) toolLogs [] w Htools Hwf)
      as (toolLogs1 & toolMessages & w1 & Hrun).
    rewrite (chat_rounds_round _ _ _ _ _ _ _ _ _ _ _ _ _ Hmsg Hcalls Hrun). cbv zeta.
    match goal with
    | |- context [create ?k ?m ?t] => destruct (Hmodel k m t) as (c & -> & Hc)
    end.
    apply IH. exact Hc.
Qed.



Lemma in_trace_emit (ev ev' : Effect) w :
  In ev (trace (emit Sess ev' w)) -> In ev (trace w) \/ ev = ev'.
Proof.
  unfold emit. simpl. rewrite in_app_iff. simpl. intuition.
Qed.

Lemma aborts_ret {A} (a : A) : model_failure_aborts (@ret (World Sess) A a).
Proof. intros w r w' messages e [= <- <-] H. auto. Qed.

Lemma aborts_of_result {A} (r : exn + A) :
  model_failure_aborts (@of_result Sess A r).
Proof. intros w r' w' messages e [= <- <-] H. auto. Qed.

Lemma aborts_bind {A B} (m : M (World Sess) A) (k : A -> M (World Sess) B) :
  model_failure_aborts m -> (forall a, model_failure_aborts (k a)) ->
  model_failure_aborts (bind m k).
Proof.
  intros Hm Hk w r w' messages e. unfold bind.
  destruct (m w) as [[e0 | a] w1] eqn:E.
  - intros [= <- <-] H.
    destruct (Hm _ _ _ _ _ E H) as [H1 | [= ->]]; [left | right]; auto.
  - intros Hrun H. destruct (Hk a _ _ _ _ _ Hrun H) as [H1 | H1]; [| auto].
    destruct (Hm _ _ _ _ _ E H1) as [H2 | H2]; [auto | discriminate].
Qed.

Lemma aborts_ask messages (tools : list OpenAITool) :
  model_failure_aborts (ask messages tools).
Proof.
  intros w r w' msgs e. unfold chat_completions_create. intros [= <- <-] H.
  apply in_trace_emit in H as [H | [= -> <-]]; auto.
Qed.

Lemma aborts_call_tool (name : option string) (args : jsval) :
  model_failure_aborts (call_tool name args).
Proof.
  apply aborts_bind; [| intros; apply aborts_ret].
  intros w r w' msgs e. unfold mcp_request.
  destruct (tools_call _ _ _) as [result session']. intros [= <- <-] H.
  apply in_trace_emit in H as [H | H]; [auto | discriminate].
Qed.

Lemma aborts_run_calls (toolCalls : list ToolCall) toolLogs toolMessages :
  model_failure_aborts (run_calls toolCalls toolLogs toolMessages).
Proof.
  revert toolLogs toolMessages.
  induction toolCalls as [|tc rest IH]; intros toolLogs toolMessages; simpl.
  - apply aborts_ret.
  - apply aborts_bind; [apply aborts_of_result |]. intros args.
    apply aborts_bind; [apply aborts_call_tool |]. intros out. apply IH.
Qed.

Lemma aborts_rounds (n : nat) (model : string) (tools : list OpenAITool) messages
    (completion : Completion) toolLogs :
  model_failure_aborts (rounds n model tools messages completion toolLogs).
Proof.
  revert messages completion toolLogs.
  induction n as [|n IH]; intros messages completion toolLogs; simpl.
  - apply aborts_ret.
  - destruct (first_message completion) as [msg|]; [| apply aborts_ret].
    destruct (default [] (m_tool_calls msg)) as [|tc tcs]; [apply aborts_ret |].
    apply aborts_bind; [apply aborts_run_calls |]. intros [toolLogs' toolMessages].
    apply aborts_bind; [apply aborts_ask |]. intros completion'. apply IH.
Qed.

Lemma aborts_finally {A} (m : M (World Sess) A) :
  model_failure_aborts m -> model_failure_aborts (finally m (mcp_close Sess)).
Proof.
  intros Hm w r w' messages e. unfold finally.
  destruct (m w) as [r0 w1] eqn:E. intros [= <- <-] H.
  apply in_trace_emit in H as [H | H]; [| discriminate].
  exact (Hm _ _ _ _ _ E H).
Qed.

(** A failed call of the chat model ends the request with the error
    payload that carries it. *)
Lemma post_chat_model_failure (req_body : jsval) w (response : ChatResponse)
    (w' : World Sess) messages (e : exn) :
  chat req_body w = (inr response, w') ->
  ~ In (ECreate messages (inl e)) (trace w) ->
  In (ECreate messages (inl e)) (trace w') ->
  response = mkChatResponse 500 (Failure "chat_failed" (Some e)).
Proof.
  unfold post_chat, catch.
  match goal with
  | |- context [match ?body w with _ => _ end] =>
      assert (Hbody : model_failure_aborts body); [| destruct (body w) as [[e0 | r] w1] eqn:E]
  end.
  { destruct (usable_messages _) as [msgs|]; [| apply aborts_ret].
    apply aborts_bind; [apply aborts_of_result |]. intros _.
    apply aborts_bind.
    { intros w0 r w1 ms e0. unfold connectMcpClient. intros [= <- <-] H.
      apply in_trace_emit in H as [H | H]; [auto | discriminate]. }
    intros _. apply aborts_finally.
    apply aborts_bind.
    { intros w0 r w1 ms e0. unfold listMcpTools. intros [= <- <-] H.
      apply in_trace_emit in H as [H | H]; [auto | discriminate]. }
    intros [|t ts]; [apply aborts_ret |].
    apply aborts_bind; [apply aborts_ask |]. intros completion. apply aborts_rounds. }
  - intros [= <- <-] Hold Hnew.
    destruct (Hbody _ _ _ _ _ E Hnew) as [H | [= ->]]; [contradiction | reflexivity].
  - intros [= <- <-] Hold Hnew.
    destruct (Hbody _ _ _ _ _ E Hnew) as [H | H]; [contradiction | discriminate].
Qed.

Lemma called_tools_emit (ev : Effect) w :
  called_tools (trace (emit Sess ev w))
  = called_tools (trace w) ++ called_tools [ev].
Proof. unfold emit. simpl trace. symmetry. apply called_tools_app. Qed.

(** The logs of a reply are the logs at the start of the loop followed by
    one entry per tool call made since, in the order of the calls. *)
Lemma chat_rounds_logs (n : nat) (model : string) (tools : list OpenAITool) messages
    (completion : Completion) toolLogs w (response : ChatResponse) (w' : World Sess) :
  rounds n model tools messages completion toolLogs w = (inr response, w') ->
  exists content newLogs,
    response = mkChatResponse 200 (Reply content model (toolLogs ++ newLogs))
    /\ called_tools (trace w') = called_tools (trace w) ++ List.map name newLogs.
Proof.
  revert messages completion toolLogs w.
  induction n as [|n IH]; intros messages completion toolLogs w.
  - simpl. unfold ret, stopped. intros [= <- <-].
    exists STOPPED, []. rewrite !app_nil_r. split; reflexivity.
  - destruct (first_message completion) as [msg|] eqn:Hmsg.
    2: { simpl. rewrite Hmsg. unfold ret, stopped. intros [= <- <-].
         exists STOPPED, []. rewrite !app_nil_r. split; reflexivity. }
    destruct (m_tool_calls msg) as [[|tc tcs]|] eqn:Hcalls.
    1, 3: simpl; rewrite Hmsg, Hcalls; unfold ret; simpl; intros [= <- <-];
          eexists _, []; rewrite !app_nil_r; split; reflexivity.
    destruct (run_calls (tc :: tcs) toolLogs [] w) as [[e | [toolLogs1 toolMessages]] w1]
      eqn:Hrun.
    { cbn [chat_rounds]. rewrite Hmsg, Hcalls.
      change (default [] (Some (tc :: tcs))) with (tc :: tcs). cbv iota.
      unfold bind at 1. rewrite Hrun. discriminate. }
    rewrite (chat_rounds_round _ _ _ _ _ _ _ _ _ _ _ _ _ Hmsg Hcalls Hrun). cbv zeta.
    apply run_tool_calls_ordered in Hrun
      as (newLogs & _ & newEffects & -> & _ & Htrace & Hnames & Hcalled & _).
    destruct (create _ _ _) as [e | completion']; [discriminate |].
    intros H. apply IH in H as (content & moreLogs & -> & Htrace').
    exists content, (newLogs ++ moreLogs). rewrite <- app_assoc. split; [reflexivity |].
    rewrite Htrace', called_tools_emit, Htrace, <- called_tools_app, Hcalled.
    rewrite List.map_app, Hnames. simpl. rewrite app_nil_r, <- app_assoc. reflexivity.
Qed.

(** The [toolLogs] of a reply list the tool calls of the request in the
    order in which they were made. *)
Lemma post_chat_logs (req_body : jsval) w (content model : string)
    (toolLogs : list ToolLog) (w' : World Sess) :
  chat req_body w = (inr (mkChatResponse 200 (Reply content model toolLogs)), w') ->
  called_tools (trace w') = called_tools (trace w) ++ List.map name toolLogs.
Proof.
  unfold post_chat, catch.
  destruct (usable_messages _) as [messages|]; [| discriminate].
  unfold bind at 1. unfold of_result at 1.
  destruct (createOpenAIClient config); [discriminate |].
  unfold bind at 1. unfold connectMcpClient at 1.
  destruct connect_result; [discriminate |].
  unfold finally. unfold bind at 1. unfold listMcpTools at 1.
  destruct listed_tools as [e | [|t ts]]; [discriminate | discriminate |].
  unfold bind at 1. unfold chat_completions_create at 1.
  destruct (create _ _ _) as [e | completion]; [discriminate |].
  match goal with
  | |- context [chat_rounds _ _ _ _ _ ?n ?m ?tl ?ms completion ?l ?w0] =>
      destruct (chat_rounds _ _ _ _ _ n m tl ms completion l w0) as [[e | response] w2] eqn:E
  end; [discriminate |].
  intros [= -> <-].
  apply chat_rounds_logs in E as (content' & newLogs & [= -> ->] & Htrace).
  subst. unfold mcp_close. rewrite called_tools_emit, Htrace, !called_tools_emit. simpl.
  rewrite !app_nil_r. reflexivity.
Qed.

Lemma in_emitted (ev ev' : Effect) w :
  In ev (trace (emit Sess ev' w)) -> In ev (trace w) \/ ev = ev'.
Proof.
  unfold emit. simpl. rewrite in_app_iff. simpl.
  intros [H | [H | []]]; [left | right]; auto.
Qed.

Lemma tool_aborts_ret {A} (a : A) : tool_failure_aborts (@ret (World Sess) A a).
Proof. intros w r w' name arguments e [= <- <-] H. auto. Qed.

Lemma tool_aborts_of_result {A} (r : exn + A) :
  tool_failure_aborts (@of_result Sess A r).
Proof. intros w r' w' name arguments e [= <- <-] H. auto. Qed.

Lemma tool_aborts_bind {A B} (m : M (World Sess) A) (k : A -> M (World Sess) B) :
  tool_failure_aborts m -> (forall a, tool_failure_aborts (k a)) ->
  tool_failure_aborts (bind m k).
Proof.
  intros Hm Hk w r w' name arguments e. unfold bind.
  destruct (m w) as [[e0 | a] w1] eqn:E.
  - intros [= <- <-] H.
    destruct (Hm _ _ _ _ _ _ E H) as [H1 | [= ->]]; [left | right]; auto.
  - intros Hrun H. destruct (Hk a _ _ _ _ _ _ Hrun H) as [H1 | H1]; [| auto].
    destruct (Hm _ _ _ _ _ _ E H1) as [H2 | H2]; [auto | discriminate].
Qed.

Lemma tool_aborts_ask messages (tools : list OpenAITool) :
  tool_failure_aborts (ask messages tools).
Proof.
  intros w r w' name arguments e. unfold chat_completions_create. intros [= <- <-] H.
  apply in_emitted in H as [H | H]; [auto | discriminate].
Qed.

Lemma tool_aborts_call_tool (name : option string) (args : jsval) :
  tool_failure_aborts (callMcpTool Sess tools_call JSON_stringify_result name args).
Proof.
  apply tool_aborts_bind; [| intros; apply tool_aborts_ret].
  intros w r w' name' arguments e. unfold mcp_request.
  destruct (tools_call _ _ _) as [result session']. intros [= <- <-] H.
  apply in_emitted in H as [H | [= _ _ <-]]; auto.
Qed.

Lemma tool_aborts_run_calls (toolCalls : list ToolCall) toolLogs toolMessages :
  tool_failure_aborts (run_calls toolCalls toolLogs toolMessages).
Proof.
  revert toolLogs toolMessages.
  induction toolCalls as [|tc rest IH]; intros toolLogs toolMessages; simpl.
  - apply tool_aborts_ret.
  - apply tool_aborts_bind; [apply tool_aborts_of_result |]. intros args.
    apply tool_aborts_bind; [apply tool_aborts_call_tool |]. intros out. apply IH.
Qed.

Lemma tool_aborts_rounds (n : nat) (model : string) (tools : list OpenAITool) messages
    (completion : Completion) toolLogs :
  tool_failure_aborts (rounds n model tools messages completion toolLogs).
Proof.
  revert messages completion toolLogs.
  induction n as [|n IH]; intros messages completion toolLogs; simpl.
  - apply tool_aborts_ret.
  - destruct (first_message completion) as [msg|]; [| apply tool_aborts_ret].
    destruct (default [] (m_tool_calls msg)) as [|tc tcs]; [apply tool_aborts_ret |].
    apply tool_aborts_bind; [apply tool_aborts_run_calls |]. intros [toolLogs' toolMessages].
    apply tool_aborts_bind; [apply tool_aborts_ask |]. intros completion'. apply IH.
Qed.

(** A rejected tools/call request, in any round, is what the request is
    answered with. *)
Lemma post_chat_tool_failure (req_body : jsval) w (response : ChatResponse)
    (w' : World Sess) (name : option string) (arguments : jsval) (e : exn) :
  chat req_body w = (inr response, w') ->
  ~ In (ECallTool name arguments (inl e)) (trace w) ->
  In (ECallTool name arguments (inl e)) (trace w') ->
  response = mkChatResponse 500 (Failure "chat_failed" (Some e)).
Proof.
  unfold post_chat, catch.
  match goal with
  | |- context [match ?body w with _ => _ end] =>
      assert (Hbody : tool_failure_aborts body);
        [| destruct (body w) as [[e0 | r] w1] eqn:E]
  end.
  { destruct (usable_messages _) as [msgs|]; [| apply tool_aborts_ret].
    apply tool_aborts_bind; [apply tool_aborts_of_result |]. intros _.
    apply tool_aborts_bind.
    { intros w0 r w1 nm ar e0. unfold connectMcpClient. intros [= <- <-] H.
      apply in_emitted in H as [H | H]; [auto | discriminate]. }
    intros _.
    assert (Hfinally : forall (m : M (World Sess) ChatResponse),
               tool_failure_aborts m -> tool_failure_aborts (finally m (mcp_close Sess))).
    { intros m Hm w0 r w1 nm ar e0. unfold finally.
      destruct (m w0) as [r0 w2] eqn:E. intros [= <- <-] H.
      apply in_emitted in H as [H | H]; [| discriminate].
      exact (Hm _ _ _ _ _ _ E H). }
    apply Hfinally. apply tool_aborts_bind.
    { intros w0 r w1 nm ar e0. unfold listMcpTools. intros [= <- <-] H.
      apply in_emitted in H as [H | H]; [auto | discriminate]. }
    intros [|t ts]; [apply tool_aborts_ret |].
    apply tool_aborts_bind; [apply tool_aborts_ask |].
    intros completion. apply tool_aborts_rounds. }
  - intros [= <- <-] Hold Hnew.
    destruct (Hbody _ _ _ _ _ _ E Hnew) as [H | [= ->]]; [contradiction | reflexivity].
  - intros [= <- <-] Hold Hnew.
    destruct (Hbody _ _ _ _ _ _ E Hnew) as [H | H]; [contradiction | discriminate].
Qed.


End ChatFacts.

(** ** The endpoint on the server's own tool session *)

Lemma reports_failures_returns {Sess : Type}
    (call : option string -> jsval -> Sess -> (exn + CallToolResult) * Sess)
    (name : option string) (args : jsval) (s : Sess) :
  exists res s', reports_failures call name args s = (inr res, s').
Proof.
  unfold reports_failures. destruct (call name args s) as [[e | res] s']; eauto.
Qed.

(** C8: the tool calls of a round are made one after the other in the
    order in which the model listed them, and the logs and tool turns keep
    that order; the [toolLogs] of a reply name the calls of the whole
    request in the order they were made; for a model that asks for a store
    and then a sum, at once or in two rounds, the reply carries the final
    assistant text and two logs, the store first and the sum second. *)
Theorem tool_calls_in_order :
  (forall (Sess : Type) tools_call JSON_parse JSON_stringify_result
          (toolCalls : list ToolCall) (toolLogs : list ToolLog)
          (toolMessages : list ChatTurn) (w : World Sess)
          (toolLogs' : list ToolLog) (toolMessages' : list ChatTurn) (w' : World Sess),
      run_tool_calls Sess tools_call JSON_parse JSON_stringify_result
        toolCalls toolLogs toolMessages w
      = (inr (toolLogs', toolMessages'), w') ->
      exists newLogs newMessages newEffects,
        toolLogs' = toolLogs ++ newLogs
        /\ toolMessages' = toolMessages ++ newMessages
        /\ trace w' = trace w ++ newEffects
        /\ List.map name newLogs = List.map call_name toolCalls
        /\ called_tools newEffects = List.map call_name toolCalls
        /\ List.map tool_call_id_of newMessages
           = List.map (fun tc => Some (tc_id tc)) toolCalls
        /\ List.map output newLogs = List.map content_of newMessages)
  /\ (forall (Sess : Type) config connect_result listed_tools create tools_call
             JSON_parse JSON_stringify_result (req_body : jsval) (w : World Sess)
             (content model : string) (toolLogs : list ToolLog) (w' : World Sess),
        post_chat Sess config connect_result listed_tools create tools_call
          JSON_parse JSON_stringify_result req_body w
        = (inr (mkChatResponse 200 (Reply content model toolLogs)), w') ->
        called_tools (trace w') = called_tools (trace w) ++ List.map name toolLogs)
  /\ fst (demo_chat None store_and_sum_model)
     = inr (mkChatResponse 200
              (Reply "Stored 7; the sum is 7." "gpt-4o-mini"
                 [mkToolLog (Some "store") store_arguments
                    (JSON_stringify_entry (mkEntry 1 7 "demo" "2025-06-01T12:00:00.000Z"));
                  mkToolLog (Some "sum") sum_last_day "7"]))
  /\ fst (demo_chat None store_sum_in_turn_model)
     = inr (mkChatResponse 200
              (Reply "Stored 7; the sum is 7." "gpt-4o-mini"
                 [mkToolLog (Some "store") store_arguments
                    (JSON_stringify_entry (mkEntry 1 7 "demo" "2025-06-01T12:00:00.000Z"));
                  mkToolLog (Some "sum") sum_last_day "7"])).
Proof.
  split; [| split; [| split]].
  - intros Sess tools_call JSON_parse JSON_stringify_result toolCalls toolLogs
      toolMessages w toolLogs' toolMessages' w' H.
    apply run_tool_calls_ordered in H
      as (newLogs & newMessages & newEffects & H1 & H2 & H3 & H4 & H5 & H6 & H7 & _).
    exists newLogs, newMessages, newEffects. auto 10.
  - intros. eapply post_chat_logs. eassumption.
  - vm_compute. reflexivity.
  - vm_compute. reflexivity.
Qed.

Lemma tool_calls_in_order_witness :
  called_tools (trace (snd (demo_chat None store_and_sum_model)))
  = [Some "store"; Some "sum"].
Proof.
  apply (proj1 (proj2 tool_calls_in_order) Database openai_config None (inr toolsList)
           store_and_sum_model (local_tools_call binds_anything server_clock mcp_error_32603)
           scripted_parse stringify_result demo_request fresh_world
           "Stored 7; the sum is 7." "gpt-4o-mini"
           [mkToolLog (Some "store") store_arguments
              (JSON_stringify_entry (mkEntry 1 7 "demo" "2025-06-01T12:00:00.000Z"));
            mkToolLog (Some "sum") sum_last_day "7"]).
  vm_compute. reflexivity.
Defined.






(** * Further properties of the server *)

(** ** The entry store under any history of requests *)

Lemma string_compare_trans (a b c : string) :
  String.compare a b <> Gt -> String.compare b c <> Gt -> String.compare a c <> Gt.
Proof.
  revert b c. induction a as [|x a IH]; intros [|y b] [|z c]; simpl;
    try congruence.
  unfold Ascii.compare.
  destruct (N.compare_spec (N_of_ascii x) (N_of_ascii y)) as [Hxy | Hxy | Hxy];
    destruct (N.compare_spec (N_of_ascii y) (N_of_ascii z)) as [Hyz | Hyz | Hyz];
    try congruence;
    destruct (N.compare_spec (N_of_ascii x) (N_of_ascii z)) as [Hxz | Hxz | Hxz];
    try congruence; try lia.
  apply IH.
Qed.

Lemma string_leb_trans (a b c : string) :
  String.leb a b = true -> String.leb b c = true -> String.leb a c = true.
Proof.
  unfold String.leb. intros Hab Hbc.
  assert (H : String.compare a c <> Gt).
  { apply (string_compare_trans a b c).
    - destruct (String.compare a b); congruence.
    - destruct (String.compare b c); congruence. }
  destruct (String.compare a c); congruence.
Qed.

Lemma insertEntry_consecutive (now : string) (v : Z) (d : string) (db : Database) :
  consecutive_ids db -> consecutive_ids (snd (insertEntry now v d db)).
Proof.
  intros [Hids Hseq]. unfold consecutive_ids, insertEntry. simpl.
  rewrite List.length_app, List.map_app, Hids. simpl.
  rewrite Nat.add_1_r, List.seq_S, List.map_app. simpl.
  split; [repeat f_equal | ]; lia.
Qed.

(** What a tools/call request does to the store: nothing, or the one
    insertion of a store whose arguments pass both checks. *)
Lemma handler_db_cases g (now name : string) (args : jsval) (db : Database) :
  (snd (CallTool_handler g now name args db) = db
   /\ forall res, fst (CallTool_handler g now name args db) = inr res ->
        isError res = true \/ name = "sum")
  \/ (name = "store"
      /\ has_type TNumber (prop (or_empty args) "value") = true
      /\ Number_isInteger (prop (or_empty args) "value") = true
      /\ has_type TString (prop (or_empty args) "description") = true
      /\ blank (string_of (prop (or_empty args) "description")) = false
      /\ CallTool_handler g now name args db
         = (inr (text_result
                   (JSON_stringify_entry
                      (fst (insertEntry now (integer_of (prop (or_empty args) "value"))
                              (string_of (prop (or_empty args) "description")) db)))
                   false),
            snd (insertEntry now (integer_of (prop (or_empty args) "value"))
                   (string_of (prop (or_empty args) "description")) db))).
Proof.
  unfold CallTool_handler.
  destruct (String.eqb_spec name "store") as [-> | Hstore].
  - destruct (has_type TNumber _) eqn:E1; simpl;
      [| left; split; [reflexivity | intros res [= <-]; auto]].
    destruct (Number_isInteger _) eqn:E2; simpl;
      [| left; split; [reflexivity | intros res [= <-]; auto]].
    destruct (has_type TString _) eqn:E3; simpl;
      [| left; split; [reflexivity | intros res [= <-]; auto]].
    destruct (blank _) eqn:E4;
      [left; split; [reflexivity | intros res [= <-]; auto] |].
    right. repeat split; reflexivity.
  - left. destruct (String.eqb_spec name "sum") as [-> | Hsum].
    + destruct (negb _ || negb _); [split; [reflexivity | auto] |].
      destruct (sumEntries _ _ _ _); split; auto.
    + split; [reflexivity | intros res [= <-]; auto].
Qed.

Lemma rest_store_db_cases (now : string) (req_body : jsval) (db : Database) :
  (exists msg, rest_store now req_body db = (mkResponse 400 (ErrorBody msg), db))
  \/ (has_type TNumber (prop (or_empty req_body) "value") = true
      /\ Number_isInteger (prop (or_empty req_body) "value") = true
      /\ has_type TString (prop (or_empty req_body) "description") = true
      /\ blank (string_of (prop (or_empty req_body) "description")) = false
      /\ rest_store now req_body db
         = (mkResponse 200
              (EntryBody
                 (fst (insertEntry now (integer_of (prop (or_empty req_body) "value"))
                         (string_of (prop (or_empty req_body) "description")) db))),
            snd (insertEntry now (integer_of (prop (or_empty req_body) "value"))
                   (string_of (prop (or_empty req_body) "description")) db))).
Proof.
  unfold rest_store.
  destruct (has_type TNumber _) eqn:E1; simpl; [| eauto].
  destruct (Number_isInteger _) eqn:E2; simpl; [| eauto].
  destruct (has_type TString _) eqn:E3; simpl; [| eauto].
  destruct (blank _) eqn:E4; [eauto |].
  right. repeat split; reflexivity.
Qed.

Lemma serve_cases g (db : Database) (r : StoreRequest) :
  serve g db r = db
  \/ exists now v d, serve g db r = snd (insertEntry now v d db).
Proof.
  destruct r as [now name args | now req_body]; simpl.
  - destruct (handler_db_cases g now name args db)
      as [[H _] | (_ & _ & _ & _ & _ & H)]; [auto |].
    right. rewrite H. simpl. eauto.
  - destruct (rest_store_db_cases now req_body db)
      as [[msg H] | (_ & _ & _ & _ & H)]; rewrite H; simpl; eauto.
Qed.

(** X1: whatever requests the server has served since the table was
    created, over tools/call or REST, the ids of the rows are 1, 2, ..., n
    in insertion order, so no two rows share an id. *)
Theorem ids_are_consecutive g (requests : list StoreRequest) :
  consecutive_ids (serve_all g requests empty_db)
  /\ List.NoDup (List.map e_id (entries (serve_all g requests empty_db))).
Proof.
  assert (H : forall db, consecutive_ids db -> consecutive_ids (serve_all g requests db)).
  { induction requests as [|r requests IH]; intros db Hdb; simpl; [exact Hdb |].
    apply IH. destruct (serve_cases g db r) as [-> | (now & v & d & ->)];
      [exact Hdb | apply insertEntry_consecutive, Hdb]. }
  assert (Hok : consecutive_ids (serve_all g requests empty_db)).
  { apply H. split; reflexivity. }
  split; [exact Hok |].
  destruct Hok as [-> _].
  apply Finite.Injective_map_NoDup; [intros a b; apply Nat2Z.inj | apply List.seq_NoDup].
Qed.

(** X2: no request updates or deletes a row: after any history the rows
    that were there are still the first rows, unchanged, and each request
    has added at most one. *)
Theorem entries_append_only g (requests : list StoreRequest) (db : Database) :
  exists added,
    entries (serve_all g requests db) = entries db ++ added
    /\ (List.length added <= List.length requests)%nat.
Proof.
  revert db. induction requests as [|r requests IH]; intros db; simpl.
  - exists []. rewrite app_nil_r. split; [reflexivity | simpl; lia].
  - destruct (IH (serve g db r)) as (added & -> & Hlen).
    destruct (serve_cases g db r) as [-> | (now & v & d & ->)].
    + exists added. split; [reflexivity | simpl; lia].
    + exists (fst (insertEntry now v d db) :: added).
      unfold insertEntry. simpl. rewrite <- app_assoc. simpl.
      split; [reflexivity | simpl; lia].
Qed.

(** X3: a store request writes only when it succeeds, on both surfaces: an
    error result, a thrown error, a 400 and every tool other than store
    leave the store as it was; a successful store appends exactly one row,
    with the next id, the integer and the description of the request and
    the reading of the clock, and answers with that row. *)
Theorem store_writes_only_on_success g (now name : string) (payload : jsval)
    (db : Database) :
  (forall res, fst (CallTool_handler g now name payload db) = inr res ->
     isError res = true -> snd (CallTool_handler g now name payload db) = db)
  /\ (forall e, fst (CallTool_handler g now name payload db) = inl e ->
        snd (CallTool_handler g now name payload db) = db)
  /\ (name <> "store" -> snd (CallTool_handler g now name payload db) = db)
  /\ (forall res, fst (CallTool_handler g now "store" payload db) = inr res ->
        isError res = false ->
        exists entry,
          res = text_result (JSON_stringify_entry entry) false
          /\ entry = mkEntry (seq db + 1) (integer_of (prop (or_empty payload) "value"))
                       (string_of (prop (or_empty payload) "description")) now
          /\ snd (CallTool_handler g now "store" payload db)
             = mkDatabase (entries db ++ [entry]) (seq db + 1))
  /\ (status (fst (rest_store now payload db)) <> 200%nat ->
      snd (rest_store now payload db) = db
      /\ status (fst (rest_store now payload db)) = 400%nat)
  /\ (status (fst (rest_store now payload db)) = 200%nat ->
      exists entry,
        body (fst (rest_store now payload db)) = EntryBody entry
        /\ entry = mkEntry (seq db + 1) (integer_of (prop (or_empty payload) "value"))
                     (string_of (prop (or_empty payload) "description")) now
        /\ snd (rest_store now payload db)
           = mkDatabase (entries db ++ [entry]) (seq db + 1)).
Proof.
  split; [| split; [| split; [| split; [| split]]]].
  - intros res Hres Herr.
    destruct (handler_db_cases g now name payload db)
      as [[H _] | (_ & _ & _ & _ & _ & H)]; [exact H |].
    rewrite H in Hres. injection Hres as <-. discriminate.
  - intros e He.
    destruct (handler_db_cases g now name payload db)
      as [[H _] | (_ & _ & _ & _ & _ & H)]; [exact H |].
    rewrite H in He. discriminate.
  - intros Hname.
    destruct (handler_db_cases g now name payload db)
      as [[H _] | (H & _)]; [exact H | contradiction].
  - intros res Hres Hok.
    destruct (handler_db_cases g now "store" payload db)
      as [[_ H] | (_ & _ & _ & _ & _ & H)].
    + destruct (H res Hres); [congruence | discriminate].
    + rewrite H in *. injection Hres as <-. eexists. repeat split.
  - intros Hstatus.
    destruct (rest_store_db_cases now payload db)
      as [[msg H] | (_ & _ & _ & _ & H)]; rewrite H in *; simpl in *;
      [split; reflexivity | contradiction].
  - intros Hstatus.
    destruct (rest_store_db_cases now payload db)
      as [[msg H] | (_ & _ & _ & _ & H)]; rewrite H in *; simpl in *;
      [discriminate |].
    eexists. repeat split.
Qed.

Lemma store_writes_only_on_success_witness :
  snd (CallTool_handler binds_anything "2025-06-01T12:00:00.000Z" "store"
         (JObj [("value", JNum 7); ("description", JStr "   ")]) empty_db)
  = empty_db
  /\ snd (CallTool_handler binds_anything "2025-06-01T12:00:00.000Z" "sum"
            (JObj [("from", JStr FROM_1970); ("to", JStr TO_2100)])
            (mkDatabase
               [mkEntry 1 4611686018427387904 "half" "2025-06-01T12:00:00.000Z";
                mkEntry 2 4611686018427387904 "half" "2025-06-01T12:00:00.000Z"] 2))
     = mkDatabase
         [mkEntry 1 4611686018427387904 "half" "2025-06-01T12:00:00.000Z";
          mkEntry 2 4611686018427387904 "half" "2025-06-01T12:00:00.000Z"] 2
  /\ snd (rest_store "2025-06-01T12:00:00.000Z"
            (JObj [("value", JNum 7); ("description", JStr "demo")]) empty_db)
     = mkDatabase [mkEntry 1 7 "demo" "2025-06-01T12:00:00.000Z"] 1
  /\ (exists entry,
        text_result
          ("{" +:+ json_string "id" +:+ ":1," +:+ json_string "value"
           +:+ ":18446744073709552000," +:+ json_string "description" +:+ ":"
           +:+ json_string "big" +:+ "," +:+ json_string "created_at" +:+ ":"
           +:+ json_string "2025-06-01T12:00:00.000Z" +:+ "}") false
        = text_result (JSON_stringify_entry entry) false
        /\ entry = mkEntry 1 18446744073709551616 "big" "2025-06-01T12:00:00.000Z").
Proof.
  pose proof (store_writes_only_on_success binds_anything "2025-06-01T12:00:00.000Z"
                "store" (JObj [("value", JNum 7); ("description", JStr "   ")]) empty_db)
    as (H1 & _).
  pose proof (store_writes_only_on_success binds_anything "2025-06-01T12:00:00.000Z"
                "sum" (JObj [("from", JStr FROM_1970); ("to", JStr TO_2100)])
                (mkDatabase
                   [mkEntry 1 4611686018427387904 "half" "2025-06-01T12:00:00.000Z";
                    mkEntry 2 4611686018427387904 "half" "2025-06-01T12:00:00.000Z"] 2))
    as (_ & H2 & _).
  pose proof (store_writes_only_on_success binds_anything "2025-06-01T12:00:00.000Z"
                "store" (JObj [("value", JNum 7); ("description", JStr "demo")]) empty_db)
    as (_ & _ & _ & _ & _ & H3).
  pose proof (store_writes_only_on_success binds_anything "2025-06-01T12:00:00.000Z"
                "store"
                (JObj [("value", JNum 18446744073709551616); ("description", JStr "big")])
                empty_db)
    as (_ & _ & _ & H4 & _).
  split; [| split; [| split]].
  - apply (H1 (text_result "description is required" true)); reflexivity.
  - apply (H2 "SqliteError: integer overflow"). vm_compute. reflexivity.
  - destruct (H3 eq_refl) as (entry & _ & -> & ->). reflexivity.
  - destruct (H4 _ ltac:(vm_compute; reflexivity) eq_refl) as (entry & Hres & Hentry & _).
    exists entry. split; [exact Hres | exact Hentry].
Defined.

Lemma in_range_inverted (from to : string) (e : Entry) :
  String.ltb to from = true -> in_range from to e = false.
Proof.
  intros Hlt. unfold in_range.
  destruct (String.leb from (e_created_at e)) eqn:H1; [| reflexivity].
  destruct (String.leb (e_created_at e) to) eqn:H2; [| reflexivity].
  pose proof (string_leb_trans _ _ _ H1 H2) as H.
  unfold String.leb in H. unfold String.ltb in Hlt.
  rewrite String.compare_antisym in H.
  destruct (String.compare to from); simpl in *; discriminate.
Qed.

(** X4: a range whose end is before its start matches no row: the sum is
    0 whatever the store holds, on the function, the tool and the REST
    endpoint. *)
Theorem sum_of_inverted_range g (now from to : string) (db : Database) :
  String.ltb to from = true ->
  sumEntries g (JStr from) (JStr to) db = inr 0
  /\ (to <> "" ->
      CallTool_handler g now "sum" (sum_arguments (Some from) (Some to)) db
      = (inr (text_result "0" false), db)
      /\ rest_sum g (Some (QStr from)) (Some (QStr to)) db
         = inr (mkResponse 200 (TotalBody 0))).
Proof.
  intros Hlt.
  assert (Hnone : List.filter (in_range from to) (entries db) = []).
  { induction (entries db) as [|e rows IH]; simpl; [reflexivity |].
    rewrite (in_range_inverted _ _ _ Hlt). exact IH. }
  assert (Hsum : sumEntries g (JStr from) (JStr to) db = inr 0).
  { apply sumEntries_none, Hnone. }
  split; [exact Hsum |].
  intros Hto.
  assert (Hfrom : from <> "").
  { intros ->. destruct to; [contradiction | discriminate]. }
  split.
  - rewrite handler_sum_unfold.
    change (prop (or_empty (sum_arguments (Some from) (Some to))) "from") with (JStr from).
    change (prop (or_empty (sum_arguments (Some from) (Some to))) "to") with (JStr to).
    rewrite !truthy_text by assumption. simpl negb. simpl orb. cbv iota.
    rewrite Hsum. reflexivity.
  - unfold rest_sum. simpl query_truthy.
    destruct (String.eqb_spec from ""); [contradiction |].
    destruct (String.eqb_spec to ""); [contradiction |].
    simpl negb. simpl orb. cbv iota. simpl String_. rewrite Hsum. reflexivity.
Qed.

Lemma sum_of_inverted_range_witness :
  sumEntries binds_anything (JStr TO_2100) (JStr FROM_1970)
    (snd (insertEntry "2025-06-01T12:00:00.000Z" 5 "hello" empty_db)) = inr 0.
Proof.
  apply (sum_of_inverted_range binds_anything "2025-06-01T12:00:00.000Z"
           TO_2100 FROM_1970).
  reflexivity.
Defined.

(** X5: the REST sum answers 400 exactly when [from] or [to] is missing or
    the empty string; otherwise it sums the rows between the two parameters
    read as text, a repeated parameter being its values joined by commas:
    the total is 0 when no row is in range and the double nearest to the sum
    when the values in range are 64-bit integers that add up within 64
    bits; when their running sum leaves the 64 bits the endpoint throws
    "integer overflow" instead of answering. *)
Theorem rest_sum_answers g (from to : option qval) (db : Database) :
  (query_truthy from && query_truthy to = false ->
   rest_sum g from to db
   = inr (mkResponse 400
            (ErrorBody "from and to query params are required (ISO datetime)")))
  /\ (query_truthy from && query_truthy to = true ->
      (forall r, rest_sum g from to db = inr r -> status r = 200%nat)
      /\ (List.filter (in_range (String_ from) (String_ to)) (entries db) = [] ->
          rest_sum g from to db = inr (mkResponse 200 (TotalBody 0)))
      /\ (sums_in_int64 (List.filter (in_range (String_ from) (String_ to)) (entries db))
          = true ->
          rest_sum g from to db
          = inr (mkResponse 200
                   (TotalBody (to_double (range_total (String_ from) (String_ to) db)))))
      /\ (forallb stored_as_integer
            (List.filter (in_range (String_ from) (String_ to)) (entries db)) = true ->
          sum_int64 0 (List.filter (in_range (String_ from) (String_ to)) (entries db))
          = None ->
          rest_sum g from to db = inl "SqliteError: integer overflow"))
  /\ (forall a b : string,
        String_ (Some (QArr [QStr a; QStr b])) = a +:+ "," +:+ b).
Proof.
  split; [| split].
  - intros H. unfold rest_sum.
    destruct (query_truthy from), (query_truthy to); try discriminate; reflexivity.
  - intros H. apply andb_true_iff in H as [H1 H2]. unfold rest_sum.
    rewrite H1, H2. cbn [negb orb]. split; [| split; [| split]].
    + intros r. destruct (sumEntries g _ _ db); [discriminate |].
      intros [= <-]. reflexivity.
    + intros Hnone. rewrite (sumEntries_none _ _ _ _ Hnone). reflexivity.
    + intros Hsum. rewrite (sumEntries_integers _ _ _ _ Hsum). reflexivity.
    + intros Hint Hsum. rewrite (sumEntries_overflow _ _ _ _ Hint Hsum). reflexivity.
  - reflexivity.
Qed.

Lemma rest_sum_answers_witness :
  rest_sum binds_anything (Some (QArr [QStr "2025"; QStr "x"])) (Some (QStr TO_2100))
    (snd (insertEntry "2025-06-01T12:00:00.000Z" 5 "hello" empty_db))
  = inr (mkResponse 200 (TotalBody 5))
  /\ rest_sum binds_anything (Some (QStr "")) (Some (QStr TO_2100)) empty_db
     = inr (mkResponse 400
              (ErrorBody "from and to query params are required (ISO datetime)"))
  /\ rest_sum binds_anything (Some (QStr FROM_1970)) (Some (QStr TO_2100))
       (mkDatabase
          [mkEntry 1 4611686018427387904 "half" "2025-06-01T12:00:00.000Z";
           mkEntry 2 4611686018427387904 "half" "2025-06-01T12:00:00.000Z"] 2)
     = inl "SqliteError: integer overflow".
Proof.
  split; [| split].
  - apply (proj1 (proj2 (proj2 (proj1 (proj2 (rest_sum_answers binds_anything
                           (Some (QArr [QStr "2025"; QStr "x"])) (Some (QStr TO_2100))
                           (snd (insertEntry "2025-06-01T12:00:00.000Z" 5 "hello"
                                   empty_db)))) eq_refl)))).
    reflexivity.
  - apply (proj1 (rest_sum_answers binds_anything (Some (QStr "")) (Some (QStr TO_2100))
                    empty_db)).
    reflexivity.
  - apply (proj2 (proj2 (proj2 (proj1 (proj2 (rest_sum_answers binds_anything
                           (Some (QStr FROM_1970)) (Some (QStr TO_2100))
                           (mkDatabase
                              [mkEntry 1 4611686018427387904 "half"
                                 "2025-06-01T12:00:00.000Z";
                               mkEntry 2 4611686018427387904 "half"
                                 "2025-06-01T12:00:00.000Z"] 2))) eq_refl))));
      vm_compute; reflexivity.
Defined.

(** ** Connecting and authorizing sessions *)

Lemma substring_all (s : string) : String.substring 0 (String.length s) s = s.
Proof. induction s as [|a s IH]; simpl; [reflexivity | rewrite IH; reflexivity]. Qed.

Lemma append_cons (a : ascii) (s t : string) :
  String a s +:+ t = String a (s +:+ t).
Proof. reflexivity. Qed.

Lemma substring_split (n : nat) (s p : string) :
  String.substring 0 n s = p -> String.length p = n ->
  s = p +:+ String.substring n (String.length s - n) s.
Proof.
  revert s p. induction n as [|n IH]; intros s p Hp Hlen.
  - destruct p; [| discriminate]. simpl. rewrite Nat.sub_0_r, substring_all.
    destruct s; reflexivity.
  - destruct s as [|a s]; simpl in Hp.
    + subst p. discriminate.
    + destruct p as [|b p]; [discriminate |]. injection Hp as -> Hp.
      simpl. rewrite append_cons. f_equal. apply IH; [exact Hp | simpl in Hlen; lia].
Qed.

(** The bearer token of a header is [token] exactly when the header is
    "Bearer " followed by it. *)
Lemma bearer_of_iff (authHeader token : string) :
  token <> "" -> (bearer_of authHeader = token <-> authHeader = "Bearer " +:+ token).
Proof.
  intros Hne. unfold bearer_of. split.
  - destruct (String.prefix "Bearer " authHeader) eqn:Hp; [| congruence].
    intros <-. apply String.prefix_correct in Hp.
    apply (substring_split 7 authHeader "Bearer " Hp eq_refl).
  - intros ->. rewrite !append_cons. change ("" +:+ token) with token.
    destruct token as [|c token]; [contradiction |].
    simpl. rewrite substring_all. reflexivity.
Qed.

Lemma get_sse_cases {Transport : Type} (requiredToken : option string) (req : SseRequest)
    (sid : string) (t : Transport) (transports : gmap string Transport) :
  get_sse requiredToken req sid t transports
  = if is_set requiredToken
       && negb (String.eqb (bearer_of (default "" (authorization req)))
                  (default "" requiredToken))
       && negb (query_is (query_token req) (default "" requiredToken))
    then Unauthorized
    else Opened (<[sid := t]> transports).
Proof. unfold get_sse. destruct (is_set requiredToken); reflexivity. Qed.

(** X6: who may connect: without a configured token (unset or empty)
    every connection is registered; with a token, a connection is
    registered exactly when its Authorization header is "Bearer " followed
    by the token or its [token] query parameter is the token, and is
    refused otherwise. *)
Theorem sse_authorization {Transport : Type} (requiredToken : option string)
    (req : SseRequest) (sid : string) (t : Transport)
    (transports : gmap string Transport) :
  (is_set requiredToken = false ->
   get_sse requiredToken req sid t transports = Opened (<[sid := t]> transports))
  /\ (forall token : string,
        requiredToken = Some token -> token <> "" ->
        (authorization req = Some ("Bearer " +:+ token)
         \/ query_token req = Some (QStr token) ->
         get_sse requiredToken req sid t transports = Opened (<[sid := t]> transports))
        /\ (authorization req <> Some ("Bearer " +:+ token) ->
            query_token req <> Some (QStr token) ->
            get_sse requiredToken req sid t transports = Unauthorized)).
Proof.
  rewrite get_sse_cases. split.
  - intros ->. reflexivity.
  - intros token -> Hne.
    assert (Hset : is_set (Some token) = true).
    { simpl. destruct (String.eqb_spec token ""); [contradiction | reflexivity]. }
    rewrite Hset. change (default "" (Some token)) with token. split.
    + intros [Hh | Hq].
      * rewrite Hh. change (default "" (Some ("Bearer " +:+ token))) with ("Bearer " +:+ token).
        rewrite (proj2 (bearer_of_iff _ token Hne) eq_refl), String.eqb_refl.
        reflexivity.
      * rewrite Hq. simpl query_is. rewrite String.eqb_refl.
        rewrite andb_false_r. reflexivity.
    + intros Hh Hq.
      assert (Hb : String.eqb (bearer_of (default "" (authorization req))) token = false).
      { apply String.eqb_neq. intros Hb. apply (bearer_of_iff _ token Hne) in Hb.
        destruct (authorization req) as [h|]; simpl in Hb; [congruence | discriminate]. }
      assert (Hquery : query_is (query_token req) token = false).
      { destruct (query_token req) as [[s | |]|]; simpl; try reflexivity.
        apply String.eqb_neq. congruence. }
      rewrite Hb, Hquery. reflexivity.
Qed.

Lemma sse_authorization_witness :
  get_sse (Some "secret") (mkSseRequest (Some "Bearer secret") None) "a1" 1%nat ∅
  = Opened (<["a1" := 1%nat]> ∅)
  /\ get_sse (Some "secret") (mkSseRequest (Some "Bearer guess") (Some (QStr "secrets")))
       "a1" 1%nat ∅
     = Unauthorized
  /\ get_sse (Some "") (mkSseRequest None None) "a1" 1%nat ∅
     = Opened (<["a1" := 1%nat]> ∅).
Proof.
  split; [| split].
  - apply (proj2 (sse_authorization (Some "secret")
                    (mkSseRequest (Some "Bearer secret") None) "a1" 1%nat ∅)
             "secret" eq_refl); [discriminate | left; reflexivity].
  - apply (proj2 (sse_authorization (Some "secret")
                    (mkSseRequest (Some "Bearer guess") (Some (QStr "secrets")))
                    "a1" 1%nat ∅)
             "secret" eq_refl); discriminate.
  - apply (proj1 (sse_authorization (Some "")
                    (mkSseRequest None None) "a1" 1%nat ∅)).
    reflexivity.
Defined.

Lemma post_messages_lookup {Transport : Type} (m m' : gmap string Transport)
    (sessionId : option qval) :
  (forall sid, sessionId = Some (QStr sid) -> m' !! sid = m !! sid) ->
  post_messages m' sessionId = post_messages m sessionId.
Proof.
  intros H. destruct sessionId as [[sid | |]|]; try reflexivity.
  simpl. rewrite (H sid eq_refl). reflexivity.
Qed.

(** X7: sessions are isolated: once a connection is registered, messages
    with its session id are routed to its transport; and neither a new
    connection nor the close of one changes what happens to a message that
    carries another session id; closing twice is closing once. *)
Theorem session_isolation {Transport : Type} (requiredToken : option string)
    (req : SseRequest) (sid : string) (t : Transport)
    (transports : gmap string Transport) :
  (forall transports',
      get_sse requiredToken req sid t transports = Opened transports' ->
      post_messages transports' (Some (QStr sid)) = Routed t
      /\ forall other, other <> Some (QStr sid) ->
           post_messages transports' other = post_messages transports other)
  /\ (forall other, other <> Some (QStr sid) ->
        post_messages (on_close sid transports) other = post_messages transports other)
  /\ on_close sid (on_close sid transports) = on_close sid transports.
Proof.
  split; [| split].
  - intros transports'. rewrite get_sse_cases.
    destruct (_ && _ && _); [discriminate |]. intros [= <-]. split.
    + simpl. rewrite lookup_insert_eq. reflexivity.
    + intros other Hother. apply post_messages_lookup. intros sid' ->.
      apply lookup_insert_ne. congruence.
  - intros other Hother. apply post_messages_lookup. intros sid' ->.
    apply lookup_delete_ne. congruence.
  - unfold on_close. apply delete_id, lookup_delete_eq.
Qed.

Lemma session_isolation_witness :
  post_messages (<["a1" := 1%nat]> (<["b2" := 2%nat]> ∅)) (Some (QStr "a1")) = Routed 1%nat
  /\ post_messages (on_close "a1" (<["a1" := 1%nat]> (<["b2" := 2%nat]> ∅)))
       (Some (QStr "b2"))
     = post_messages (<["a1" := 1%nat]> (<["b2" := 2%nat]> ∅)) (Some (QStr "b2")).
Proof.
  split.
  - apply (proj1 (session_isolation None (mkSseRequest None None) "a1" 1%nat
                    (<["b2" := 2%nat]> ∅))
             (<["a1" := 1%nat]> (<["b2" := 2%nat]> ∅)) eq_refl).
  - apply (proj1 (proj2 (session_isolation None (mkSseRequest None None) "a1" 1%nat
                           (<["a1" := 1%nat]> (<["b2" := 2%nat]> ∅))))).
    discriminate.
Defined.

(** X8: a connected session stays reachable until it closes: after any
    history in which the last event about a session id is an accepted
    connection, a message with that id is routed to that connection's
    transport. *)
Theorem open_session_is_routed {Transport : Type} (requiredToken : option string)
    (before after : list (SessionEvent Transport)) (req : SseRequest) (sid : string)
    (t : Transport) :
  get_sse requiredToken req sid t ∅ <> Unauthorized ->
  ~ Exists (mentions sid) after ->
  post_messages (registry_after requiredToken (before ++ Sse req sid t :: after))
    (Some (QStr sid))
  = Routed t.
Proof.
  intros Hauth Hafter. unfold registry_after. rewrite fold_left_app. cbn [fold_left].
  set (m0 := fold_left (session_step requiredToken) before ∅).
  assert (Hstep : session_step requiredToken m0 (Sse req sid t) !! sid = Some t).
  { simpl. rewrite get_sse_cases in *. destruct (_ && _ && _); [congruence |].
    apply lookup_insert_eq. }
  revert Hstep. generalize (session_step requiredToken m0 (Sse req sid t)).
  clear Hauth. induction after as [|ev after IH]; intros m Hm; simpl.
  - unfold post_messages. rewrite Hm. reflexivity.
  - apply IH.
    + intros H. apply Hafter. apply Exists_cons_tl. exact H.
    + assert (Hev : ~ mentions sid ev).
      { intros H. apply Hafter. constructor. exact H. }
      destruct ev as [req' sid' t' | sid']; simpl in *.
      * rewrite get_sse_cases. destruct (_ && _ && _); [exact Hm |].
        rewrite lookup_insert_ne by exact Hev. exact Hm.
      * unfold on_close. rewrite lookup_delete_ne by exact Hev. exact Hm.
Qed.

Lemma open_session_is_routed_witness :
  post_messages
    (registry_after (Some "secret")
       ([Closed "a1"] ++ Sse (mkSseRequest (Some "Bearer secret") None) "a1" 1%nat
          :: [Sse (mkSseRequest None (Some (QStr "secret"))) "b2" 2%nat; Closed "b2"]))
    (Some (QStr "a1"))
  = Routed 1%nat.
Proof.
  apply (open_session_is_routed (Some "secret") [Closed "a1"]
           [Sse (mkSseRequest None (Some (QStr "secret"))) "b2" 2%nat; Closed "b2"]
           (mkSseRequest (Some "Bearer secret") None) "a1" 1%nat).
  - discriminate.
  - intros H. repeat (apply Exists_cons in H as [H | H]; [discriminate H |]).
    inversion H.
Defined.

(** ** Listing entries page by page *)

Lemma Qle_bool_integers (a b : Z) : Qle_bool (inject_Z a) (inject_Z b) = (a <=? b)%Z.
Proof. unfold Qle_bool. simpl. rewrite !Z.mul_1_r. reflexivity. Qed.

Lemma Math_max_1 (z : Z) :
  Math_max (NFin 1) (NFin (inject_Z z)) = NFin (inject_Z (Z.max 1 z)).
Proof.
  unfold Math_max. change (1%Q) with (inject_Z 1). rewrite Qle_bool_integers.
  destruct (Z.leb_spec 1 z); [rewrite Z.max_r | rewrite Z.max_l]; try reflexivity; lia.
Qed.

Lemma Math_min_100 (z : Z) :
  Math_min (NFin 100) (NFin (inject_Z z)) = NFin (inject_Z (Z.min 100 z)).
Proof.
  unfold Math_min. change (100%Q) with (inject_Z 100). rewrite Qle_bool_integers.
  destruct (Z.leb_spec 100 z); [rewrite Z.min_l | rewrite Z.min_r]; try reflexivity; lia.
Qed.

Lemma as_sql_integer_integer (z : Z) :
  - 2 ^ 63 <= z < 2 ^ 63 -> as_sql_integer (NFin (inject_Z z)) = Some z.
Proof.
  intros [Hlo Hhi]. unfold as_sql_integer. simpl Qnum. simpl Qden.
  rewrite Z.mod_1_r, Z.div_1_r. simpl Z.eqb.
  destruct (Z.leb_spec (- 2 ^ 63) z); [| lia].
  destruct (Z.ltb_spec z (2 ^ 63)); [| lia].
  reflexivity.
Qed.

Lemma offset_integer (p s : Z) :
  - 2 ^ 63 <= (p - 1) * s < 2 ^ 63 ->
  as_sql_integer (num_mul (num_sub (NFin (inject_Z p)) (NFin 1)) (NFin (inject_Z s)))
  = Some ((p - 1) * s).
Proof.
  intros [Hlo Hhi]. unfold as_sql_integer, num_mul, num_sub. simpl Qnum. simpl Qden.
  rewrite Z.mod_1_r, Z.div_1_r. simpl Z.eqb.
  match goal with
  | |- context [Some ?x] => replace x with ((p - 1) * s) by ring
  end.
  destruct (Z.leb_spec (- 2 ^ 63) ((p - 1) * s)); [| lia].
  destruct (Z.ltb_spec ((p - 1) * s) (2 ^ 63)); [| lia].
  reflexivity.
Qed.

Lemma ceiling_of_quotient (a b : Z) :
  0 < b -> - (- a / b) = (a + b - 1) / b.
Proof.
  intros Hb.
  pose proof (Z.div_mod (- a) b) as H1. pose proof (Z.mod_pos_bound (- a) b Hb) as H2.
  pose proof (Z.div_mod (a + b - 1) b) as H3.
  pose proof (Z.mod_pos_bound (a + b - 1) b Hb) as H4.
  nia.
Qed.

Lemma pages_integer (total s : Z) :
  1 <= s ->
  Math_max (NFin 1) (Math_ceil (num_div (NFin (inject_Z total)) (NFin (inject_Z s))))
  = NFin (inject_Z (Z.max 1 ((total + s - 1) / s))).
Proof.
  intros Hs. unfold num_div, Qzero_bool. simpl Qnum.
  destruct (Z.eqb_spec s 0); [lia |].
  unfold Math_ceil. rewrite Math_max_1. do 3 f_equal.
  destruct s as [|sp|sp]; try lia.
  unfold Qceiling, Qfloor, Qdiv, Qinv, Qmult, Qopp. simpl.
  rewrite Z.mul_1_r. apply ceiling_of_quotient. lia.
Qed.

Lemma slices_concat {A : Type} (s P : nat) (L : list A) :
  (1 <= s)%nat -> (List.length L <= P * s)%nat ->
  List.concat (List.map (fun k => List.firstn s (List.skipn (k * s) L)) (List.seq 0 P)) = L.
Proof.
  intros Hs. revert L. induction P as [|P IH]; intros L Hlen.
  - destruct L; [reflexivity | simpl in Hlen; lia].
  - change (List.seq 0 (S P)) with (0%nat :: List.seq 1 P).
    rewrite <- List.seq_shift, List.map_cons, List.map_map, List.concat_cons.
    simpl List.skipn at 1.
    rewrite (List.map_ext _ (fun k => List.firstn s (List.skipn (k * s) (List.skipn s L)))).
    + rewrite IH; [apply List.firstn_skipn |].
      rewrite List.length_skipn. simpl in Hlen. lia.
    + intros k. f_equal. rewrite List.skipn_skipn. f_equal. simpl. lia.
Qed.

Section ListingFacts.

Variable order_by_created_at_desc : list Entry -> list Entry.
Variable stmt_all_other : jsnum -> jsnum -> Database -> exn + list Entry.
Variable parse_number : string -> jsnum.

#[local] Abbreviation list_entries :=
  (listEntries order_by_created_at_desc stmt_all_other).
#[local] Abbreviation Num z := (NFin (inject_Z z)).

(** [listEntries] on an integer page and page size. *)
Lemma listEntries_integers (n m : Z) (db : Database) :
  (Z.max 1 n - 1) * Z.max 1 (Z.min 100 m) < 2 ^ 63 ->
  list_entries (Num n) (Num m) db
  = inr (mkListing
           (List.firstn (Z.to_nat (Z.max 1 (Z.min 100 m)))
              (List.skipn (Z.to_nat ((Z.max 1 n - 1) * Z.max 1 (Z.min 100 m)))
                 (order_by_created_at_desc (entries db))))
           (Num (Z.max 1 n))
           (Num (Z.max 1 (Z.min 100 m)))
           (Z.of_nat (List.length (entries db)))
           (Num (Z.max 1
                   ((Z.of_nat (List.length (entries db)) + Z.max 1 (Z.min 100 m) - 1)
                    / Z.max 1 (Z.min 100 m))))).
Proof.
  intros Hoff. unfold listEntries.
  rewrite Math_min_100, !Math_max_1, pages_integer by lia.
  rewrite offset_integer, as_sql_integer_integer by lia.
  unfold sql_limit.
  destruct (Z.ltb_spec (Z.max 1 (Z.min 100 m)) 0); [lia | reflexivity].
Qed.

(** X9: a page is a slice of the ordered rows: for an integer page and
    page size the answer reports the page raised to at least 1, the size
    clamped to 1..100, the number of rows and the number of pages
    max(1, ceil(total / size)); its items are the rows from position
    (page - 1) * size on, at most size of them, so never more than 100. *)
Theorem page_is_a_slice (n m : Z) (db : Database) :
  (Z.max 1 n - 1) * Z.max 1 (Z.min 100 m) < 2 ^ 63 ->
  exists listing,
    list_entries (Num n) (Num m) db = inr listing
    /\ l_page listing = Num (Z.max 1 n)
    /\ l_pageSize listing = Num (Z.max 1 (Z.min 100 m))
    /\ l_total listing = Z.of_nat (List.length (entries db))
    /\ l_pages listing
       = Num (Z.max 1
                ((Z.of_nat (List.length (entries db)) + Z.max 1 (Z.min 100 m) - 1)
                 / Z.max 1 (Z.min 100 m)))
    /\ l_items listing
       = List.firstn (Z.to_nat (Z.max 1 (Z.min 100 m)))
           (List.skipn (Z.to_nat ((Z.max 1 n - 1) * Z.max 1 (Z.min 100 m)))
              (order_by_created_at_desc (entries db)))
    /\ Z.of_nat (List.length (l_items listing)) <= Z.max 1 (Z.min 100 m) <= 100.
Proof.
  intros Hoff. eexists. split; [apply listEntries_integers, Hoff |].
  simpl. repeat split; try lia.
  rewrite List.length_firstn. lia.
Qed.

(** X10: the pages of one page size hold every row exactly once, in
    order: pages 1 to [pages], put end to end, are the ordered rows; and
    every page reports that same number of pages. *)
Theorem pages_cover_the_rows (m : Z) (db : Database) :
  List.length (order_by_created_at_desc (entries db)) = List.length (entries db) ->
  Z.of_nat (List.length (entries db)) < 2 ^ 62 ->
  exists pages : nat,
    (1 <= pages)%nat
    /\ (forall (n : Z) listing,
          list_entries (Num n) (Num m) db = inr listing ->
          l_pages listing = Num (Z.of_nat pages))
    /\ List.concat
         (List.map (fun k => items_of (list_entries (Num (Z.of_nat k)) (Num m) db))
            (List.seq 1 pages))
       = order_by_created_at_desc (entries db).
Proof.
  intros Hlen Hbound.
  set (s := Z.max 1 (Z.min 100 m)).
  set (total := Z.of_nat (List.length (entries db))) in *.
  set (P := Z.max 1 ((total + s - 1) / s)).
  assert (Hs : 1 <= s <= 100) by (unfold s; lia).
  assert (Hceil : total <= P * s /\ (P - 1) * s <= total).
  { pose proof (Z.div_mod (total + s - 1) s) as H1.
    pose proof (Z.mod_pos_bound (total + s - 1) s) as H2.
    assert (0 <= total) by (unfold total; lia).
    unfold P. destruct (Z.max_spec 1 ((total + s - 1) / s)) as [[Hq ->] | [Hq ->]]; nia. }
  exists (Z.to_nat P).
  split; [unfold P; lia |]. split.
  - intros n listing. unfold listEntries.
    rewrite Math_min_100, !Math_max_1, pages_integer by lia.
    fold s. fold total. fold P.
    destruct (match as_sql_integer (Num s) with Some _ => _ | None => _ end);
      [discriminate |].
    intros [= <-]. simpl. rewrite Z2Nat.id by (unfold P; lia). reflexivity.
  - rewrite <- List.seq_shift, List.map_map.
    rewrite (List.map_ext_in _
               (fun k => List.firstn (Z.to_nat s)
                           (List.skipn (k * Z.to_nat s)
                              (order_by_created_at_desc (entries db))))).
    + apply slices_concat; [lia |]. rewrite Hlen. unfold total in *. nia.
    + intros k Hk. apply List.in_seq in Hk.
      rewrite listEntries_integers by (fold s; nia).
      simpl. fold s. do 2 f_equal. nia.
Qed.

(** X11: a page past the last one is empty, and while there are rows every
    page from 1 to [pages] holds at least one. *)
Theorem last_page_and_beyond (n m : Z) (db : Database) :
  List.length (order_by_created_at_desc (entries db)) = List.length (entries db) ->
  (Z.max 1 n - 1) * Z.max 1 (Z.min 100 m) < 2 ^ 63 ->
  exists listing pages,
    list_entries (Num n) (Num m) db = inr listing
    /\ l_pages listing = Num pages
    /\ (pages < n -> l_items listing = [])
    /\ (entries db <> [] -> n <= pages -> l_items listing <> []).
Proof.
  intros Hlen Hoff.
  set (s := Z.max 1 (Z.min 100 m)) in *.
  set (total := Z.of_nat (List.length (entries db))).
  set (P := Z.max 1 ((total + s - 1) / s)).
  assert (Hs : 1 <= s <= 100) by (unfold s; lia).
  assert (Htotal : 0 <= total) by (unfold total; lia).
  assert (Hceil : total <= P * s /\ (0 < total -> (P - 1) * s < total)).
  { pose proof (Z.div_mod (total + s - 1) s) as H1.
    pose proof (Z.mod_pos_bound (total + s - 1) s) as H2.
    unfold P. destruct (Z.max_spec 1 ((total + s - 1) / s)) as [[Hq ->] | [Hq ->]]; nia. }
  exists (mkListing
            (List.firstn (Z.to_nat s)
               (List.skipn (Z.to_nat ((Z.max 1 n - 1) * s))
                  (order_by_created_at_desc (entries db))))
            (Num (Z.max 1 n)) (Num s) total (Num P)), P.
  split; [apply listEntries_integers, Hoff |].
  split; [reflexivity |]. simpl. split.
  - intros Hpast. rewrite List.skipn_all2; [apply List.firstn_nil |].
    rewrite Hlen. fold total in Hlen. unfold total in *. nia.
  - intros Hrows Hin Hnil.
    assert (Hpos : 0 < total).
    { unfold total. destruct (entries db); [contradiction | simpl; lia]. }
    apply (f_equal (@List.length Entry)) in Hnil.
    rewrite List.length_firstn, List.length_skipn, Hlen in Hnil. simpl in Hnil.
    unfold total in *. nia.
Qed.

End ListingFacts.

Lemma page_is_a_slice_witness :
  exists listing,
    listEntries newest_first refuses_mismatch (NFin (inject_Z 2)) (NFin (inject_Z 2))
      three_rows
    = inr listing
    /\ List.map e_value (l_items listing) = [1]
    /\ l_pages listing = NFin (inject_Z 2)
    /\ l_total listing = 3.
Proof.
  destruct (page_is_a_slice newest_first refuses_mismatch 2 2 three_rows)
    as (listing & Hrun & _ & _ & Htotal & Hpages & Hitems & _).
  { vm_compute. reflexivity. }
  exists listing. split; [exact Hrun |].
  rewrite Hitems, Hpages, Htotal. vm_compute. repeat split.
Defined.

Lemma pages_cover_the_rows_witness :
  List.map e_value
    (List.concat
       (List.map
          (fun k => items_of (listEntries newest_first refuses_mismatch
                                (NFin (inject_Z (Z.of_nat k))) (NFin (inject_Z 2)) three_rows))
          (List.seq 1 2)))
  = [3; 2; 1].
Proof.
  destruct (pages_cover_the_rows newest_first refuses_mismatch 2 three_rows)
    as (pages & Hpos & Hpages & Hcover).
  { reflexivity. }
  { vm_compute. reflexivity. }
  assert (Htwo : pages = 2%nat).
  { assert (H : NFin (inject_Z 2) = NFin (inject_Z (Z.of_nat pages))).
    { apply (Hpages 1 (mkListing (List.firstn 2 (newest_first (entries three_rows)))
                         (NFin (inject_Z 1)) (NFin (inject_Z 2)) 3 (NFin (inject_Z 2)))).
      vm_compute. reflexivity. }
    injection H as H. lia. }
  subst pages. rewrite Hcover. vm_compute. reflexivity.
Defined.

Lemma last_page_and_beyond_witness :
  items_of (listEntries newest_first refuses_mismatch (NFin (inject_Z 3)) (NFin (inject_Z 2))
              three_rows)
  = [].
Proof.
  destruct (last_page_and_beyond newest_first refuses_mismatch 3 2 three_rows)
    as (listing & pages & Hrun & Hpages & Hpast & _).
  { reflexivity. }
  { vm_compute. reflexivity. }
  rewrite Hrun. simpl. apply Hpast.
  assert (H : l_pages listing = NFin (inject_Z 2)).
  { vm_compute in Hrun. injection Hrun as <-. reflexivity. }
  rewrite H in Hpages. injection Hpages as <-. lia.
Defined.

Lemma Qle_bool_false (x y : Q) : Qle_bool x y = false -> (y <= x)%Q.
Proof.
  intros H. apply Qlt_le_weak, Qnot_le_lt. intros Hle.
  apply Qle_bool_iff in Hle. congruence.
Qed.

Lemma clamp_bounds (x : jsnum) :
  x <> NNaN ->
  exists q, Math_max (NFin 1) (Math_min (NFin 100) x) = NFin q /\ (1 <= q)%Q /\ (q <= 100)%Q.
Proof.
  intros Hx. destruct x as [q | | [|]]; [| contradiction | |]; simpl.
  - destruct (Qle_bool 100 q) eqn:E1.
    + exists 100%Q. split; [reflexivity | split; discriminate].
    + destruct (Qle_bool 1 q) eqn:E2.
      * exists q. split; [reflexivity |]. split.
        { apply Qle_bool_iff, E2. }
        { apply Qle_bool_false, E1. }
      * exists 1%Q. split; [reflexivity | split; discriminate].
  - exists 1%Q. split; [reflexivity | split; discriminate].
  - exists 100%Q. split; [reflexivity | split; discriminate].
Qed.

Lemma or_default_not_nan (x d : jsnum) :
  d <> NNaN -> (if num_truthy x then x else d) <> NNaN.
Proof. intros Hd. destruct x as [q | | b]; simpl; [destruct (negb _) | |]; congruence. Qed.

(** X12: whatever the query of GET /api/entries holds and however its
    strings read as numbers, an answer reports a page size between 1 and
    100 and a page of at least 1, and counts all rows.  The two parameters
    are read independently: a page that is missing or reads as NaN or 0
    counts as 1 whatever the page size is, and a page size that is missing
    or reads as NaN or 0 counts as 10 whatever the page is; any other
    reading is used, the page raised to 1 and the page size brought between
    1 and 100. *)
Theorem entries_query_is_clamped order_by_created_at_desc stmt_all_other parse_number
    (page pageSize : option qval) (db : Database) :
  (forall listing,
      get_entries order_by_created_at_desc stmt_all_other parse_number page pageSize db
      = inr listing ->
      (exists q, l_pageSize listing = NFin q /\ (1 <= q)%Q /\ (q <= 100)%Q)
      /\ (l_page listing = NInf false
          \/ exists q, l_page listing = NFin q /\ (1 <= q)%Q)
      /\ l_total listing = Z.of_nat (List.length (entries db))
      /\ (num_truthy (Number_ parse_number page) = false -> l_page listing = NFin 1)
      /\ (num_truthy (Number_ parse_number pageSize) = false ->
          l_pageSize listing = NFin 10)
      /\ (num_truthy (Number_ parse_number page) = true ->
          l_page listing = Math_max (NFin 1) (Number_ parse_number page))
      /\ (num_truthy (Number_ parse_number pageSize) = true ->
          l_pageSize listing
          = Math_max (NFin 1) (Math_min (NFin 100) (Number_ parse_number pageSize))))
  /\ get_entries order_by_created_at_desc stmt_all_other parse_number None None db
     = listEntries order_by_created_at_desc stmt_all_other (NFin 1) (NFin 10) db
  /\ (num_truthy (Number_ parse_number page) = false ->
      get_entries order_by_created_at_desc stmt_all_other parse_number page pageSize db
      = get_entries order_by_created_at_desc stmt_all_other parse_number None pageSize db)
  /\ (num_truthy (Number_ parse_number pageSize) = false ->
      get_entries order_by_created_at_desc stmt_all_other parse_number page pageSize db
      = get_entries order_by_created_at_desc stmt_all_other parse_number page None db).
Proof.
  split; [| split; [| split]].
  - intros listing. unfold get_entries, listEntries.
    set (x := if num_truthy (Number_ parse_number pageSize)
              then Number_ parse_number pageSize else NFin 10).
    set (y := if num_truthy (Number_ parse_number page)
              then Number_ parse_number page else NFin 1).
    assert (Hx : x <> NNaN) by (apply or_default_not_nan; discriminate).
    assert (Hy : y <> NNaN) by (apply or_default_not_nan; discriminate).
    destruct (match as_sql_integer _ with Some _ => _ | None => _ end) as [e | rows];
      [discriminate |].
    intros [= <-]. simpl.
    split; [apply clamp_bounds, Hx |].
    split.
    { destruct y as [q | | [|]]; [| contradiction | |]; simpl; auto.
      + right. destruct (Qle_bool 1 q) eqn:E.
        * exists q. split; [reflexivity | apply Qle_bool_iff, E].
        * exists 1%Q. split; [reflexivity | discriminate].
      + right. exists 1%Q. split; [reflexivity | discriminate]. }
    split; [reflexivity |].
    unfold x, y.
    repeat split; intros H; rewrite H; reflexivity.
  - reflexivity.
  - intros Hp. unfold get_entries. rewrite Hp. reflexivity.
  - intros Hs. unfold get_entries. rewrite Hs. reflexivity.
Qed.

Lemma entries_query_is_clamped_witness :
  (exists listing,
      get_entries newest_first refuses_mismatch StringToNumber
        (Some (QStr "abc")) (Some (QStr "5000")) three_rows
      = inr listing
      /\ l_page listing = NFin 1
      /\ l_pageSize listing = NFin 100
      /\ l_items listing = newest_first (entries three_rows))
  /\ (exists listing,
        get_entries newest_first refuses_mismatch StringToNumber
          (Some (QStr " 0x2 ")) (Some (QStr "0")) three_rows
        = inr listing
        /\ l_page listing = NFin 2
        /\ l_pageSize listing = NFin 10
        /\ l_items listing = []).
Proof.
  split.
  - pose proof (proj1 (entries_query_is_clamped newest_first refuses_mismatch
                         StringToNumber (Some (QStr "abc")) (Some (QStr "5000"))
                         three_rows)
                  (mkListing (newest_first (entries three_rows)) (NFin 1) (NFin 100) 3
                     (NFin 1))
                  ltac:(vm_compute; reflexivity))
      as (_ & _ & _ & Hpage & _ & _ & Hsize).
    exists (mkListing (newest_first (entries three_rows)) (NFin 1) (NFin 100) 3 (NFin 1)).
    split; [vm_compute; reflexivity |].
    split; [apply Hpage; reflexivity |].
    split; [rewrite (Hsize eq_refl); vm_compute; reflexivity | reflexivity].
  - pose proof (proj1 (entries_query_is_clamped newest_first refuses_mismatch
                         StringToNumber (Some (QStr " 0x2 ")) (Some (QStr "0"))
                         three_rows)
                  (mkListing [] (NFin 2) (NFin 10) 3 (NFin 1))
                  ltac:(vm_compute; reflexivity))
      as (_ & _ & _ & _ & Hsize & Hpage & _).
    exists (mkListing [] (NFin 2) (NFin 10) 3 (NFin 1)).
    split; [vm_compute; reflexivity |].
    split; [rewrite (Hpage eq_refl); vm_compute; reflexivity |].
    split; [apply Hsize; reflexivity | reflexivity].
Defined.

(** ** The chat endpoint before and around the loop *)

Section ChatEdges.

Variable Sess : Type.
Variable config : Config.
Variable connect_result : option exn.
Variable listed_tools : exn + list ToolDescriptor.
Variable create : nat -> list ChatTurn -> list OpenAITool -> exn + Completion.
Variable tools_call : option string -> jsval -> Sess -> (exn + CallToolResult) * Sess.
Variable JSON_parse : string -> exn + jsval.
Variable JSON_stringify_result : CallToolResult -> string.

#[local] Abbreviation run_calls :=
  (run_tool_calls Sess tools_call JSON_parse JSON_stringify_result).
#[local] Abbreviation rounds :=
  (chat_rounds Sess create tools_call JSON_parse JSON_stringify_result).
#[local] Abbreviation ask := (chat_completions_create Sess create).
#[local] Abbreviation chat :=
  (post_chat Sess config connect_result listed_tools create tools_call
     JSON_parse JSON_stringify_result).

Implicit Types (w : World Sess) (tc : ToolCall) (toolLogs : list ToolLog)
  (toolMessages messages : list ChatTurn).

Lemma post_chat_rejected (req_body : jsval) w :
  usable_messages (request_messages req_body) = None ->
  chat req_body w
  = (inr (mkChatResponse 400
            (Failure "Provide `message` or non-empty `messages` array." None)),
     w).
Proof. intros H. unfold post_chat, catch. rewrite H. reflexivity. Qed.

(** X13: which bodies the chat endpoint accepts.  A truthy [messages]
    decides alone: a non-empty array is the conversation, anything else is
    refused even beside a good [message].  Without it, [message] must be a
    string that is not blank, and its trimmed text is the one user turn.  A
    refused request is answered 400 and nothing else happens. *)
Theorem chat_request_is_validated (req_body : jsval) w :
  (forall item items,
      prop (or_empty req_body) "messages" = JArr (item :: items) ->
      usable_messages (request_messages req_body)
      = Some (List.map Given (item :: items)))
  /\ (truthy (prop (or_empty req_body) "messages") = true ->
      (forall item items, prop (or_empty req_body) "messages" <> JArr (item :: items)) ->
      chat req_body w
      = (inr (mkChatResponse 400
                (Failure "Provide `message` or non-empty `messages` array." None)),
         w))
  /\ (forall s : string,
        truthy (prop (or_empty req_body) "messages") = false ->
        prop (or_empty req_body) "message" = JStr s ->
        blank s = false ->
        usable_messages (request_messages req_body) = Some [UserTurn (trim s)])
  /\ (truthy (prop (or_empty req_body) "messages") = false ->
      has_type TString (prop (or_empty req_body) "message") = false
      \/ blank (string_of (prop (or_empty req_body) "message")) = true ->
      chat req_body w
      = (inr (mkChatResponse 400
                (Failure "Provide `message` or non-empty `messages` array." None)),
         w)).
Proof.
  split; [| split; [| split]].
  - intros item items H. unfold request_messages. rewrite H. reflexivity.
  - intros Htruthy Hnot. apply post_chat_rejected.
    unfold request_messages. rewrite Htruthy. simpl.
    destruct (prop (or_empty req_body) "messages") as [| | | | | | |[|item items]|];
      try reflexivity.
    exfalso. exact (Hnot item items eq_refl).
  - intros s Hfalsy Hmessage Hblank. unfold request_messages.
    rewrite Hfalsy, Hmessage. simpl. rewrite Hblank. reflexivity.
  - intros Hfalsy Hbad. apply post_chat_rejected.
    unfold request_messages. rewrite Hfalsy. simpl negb. simpl andb.
    assert (E : has_type TString (prop (or_empty req_body) "message")
                && negb (blank (string_of (prop (or_empty req_body) "message"))) = false).
    { destruct Hbad as [-> | ->]; [reflexivity | apply andb_false_r]. }
    rewrite E.
    destruct (prop (or_empty req_body) "messages") as [| | | | | | |[|item items]|];
      try reflexivity; discriminate.
Qed.

(** X14: the chat needs the key of its provider.  Without LLM_PROVIDER the
    client is built exactly when one of the two keys is set; with
    LLM_PROVIDER "openrouter" exactly when the OpenRouter key is set, and
    with any other provider name exactly when the OpenAI key is set.  When
    it is not built, the request is answered 500 "chat_failed" with that
    error before any connection is made. *)
Theorem chat_needs_its_key (req_body : jsval) w messages :
  (is_set (LLM_PROVIDER config) = false ->
   (createOpenAIClient config = None
    <-> is_set (OPENROUTER_API_KEY config) = true \/ is_set (OPENAI_API_KEY config) = true))
  /\ (LLM_PROVIDER config = Some "openrouter" ->
      (createOpenAIClient config = None <-> is_set (OPENROUTER_API_KEY config) = true))
  /\ (forall provider : string,
        LLM_PROVIDER config = Some provider -> provider <> "" ->
        provider <> "openrouter" ->
        (createOpenAIClient config = None <-> is_set (OPENAI_API_KEY config) = true))
  /\ (forall e : exn,
        usable_messages (request_messages req_body) = Some messages ->
        createOpenAIClient config = Some e ->
        chat req_body w
        = (inr (mkChatResponse 500 (Failure "chat_failed" (Some e))), w)).
Proof.
  split; [| split; [| split]].
  - intros Hp. unfold createOpenAIClient, PROVIDER. rewrite Hp.
    destruct (is_set (OPENROUTER_API_KEY config)), (is_set (OPENAI_API_KEY config));
      simpl; intuition congruence.
  - intros Hp. unfold createOpenAIClient, PROVIDER. rewrite Hp. simpl.
    destruct (is_set (OPENROUTER_API_KEY config)); simpl; intuition congruence.
  - intros provider Hp Hne Hnot. unfold createOpenAIClient, PROVIDER. rewrite Hp.
    assert (Hset : is_set (Some provider) = true).
    { simpl. destruct (String.eqb_spec provider ""); [contradiction | reflexivity]. }
    rewrite Hset. change (default "" (Some provider)) with provider.
    destruct (String.eqb_spec provider "openrouter"); [contradiction |].
    destruct (is_set (OPENAI_API_KEY config)); simpl; intuition congruence.
  - intros e Hmessages Hclient. unfold post_chat, catch.
    rewrite Hmessages, Hclient. reflexivity.
Qed.

(** X15: a plain answer ends the request at once: when the first
    completion carries a message without tool calls, the reply is its
    content (empty when it has none) with no tool logs, after exactly one
    call of the model and no tool call, and the session is closed. *)
Theorem plain_answer_is_returned (req_body : jsval) w messages (t : ToolDescriptor)
    (ts : list ToolDescriptor) (completion : Completion) (msg : Message) :
  usable_messages (request_messages req_body) = Some messages ->
  createOpenAIClient config = None ->
  connect_result = None ->
  listed_tools = inr (t :: ts) ->
  create (model_calls w) messages (toOpenAITools (t :: ts)) = inr completion ->
  first_message completion = Some msg ->
  default [] (m_tool_calls msg) = [] ->
  chat req_body w
  = (inr (mkChatResponse 200
            (Reply (if is_set (m_content msg) then default "" (m_content msg) else "")
               (DEFAULT_MODEL config) [])),
     mkWorld (session w)
       (trace w ++ [EConnect; EListTools; ECreate messages (inr completion); EClose])).
Proof.
  intros Hmessages Hclient Hconnect Hlist Hcreate Hmsg Hcalls.
  rewrite (post_chat_started _ _ _ _ _ _ _ _ _ _ _ _ _ Hmessages Hclient Hconnect Hlist).
  cbv zeta. unfold bind at 1. unfold chat_completions_create at 1.
  rewrite !model_calls_emit. cbn [is_create]. rewrite !Nat.add_0_r, Hcreate.
  unfold MAX_TOOL_ITERATIONS. cbn [chat_rounds]. rewrite Hmsg, Hcalls.
  unfold ret, emit. simpl. rewrite <- !app_assoc. reflexivity.
Qed.

(** X16: without tools there is no chat: when the session lists no tool
    the answer is 500 "No MCP tools available", and when listing fails it
    is 500 "chat_failed" with the error; in both cases the model is never
    called and the session is closed. *)
Theorem tools_must_be_listed (req_body : jsval) w messages :
  usable_messages (request_messages req_body) = Some messages ->
  createOpenAIClient config = None ->
  connect_result = None ->
  (listed_tools = inr [] ->
   chat req_body w
   = (inr (mkChatResponse 500 (Failure "No MCP tools available" None)),
      mkWorld (session w) (trace w ++ [EConnect; EListTools; EClose])))
  /\ (forall e, listed_tools = inl e ->
        chat req_body w
        = (inr (mkChatResponse 500 (Failure "chat_failed" (Some e))),
           mkWorld (session w) (trace w ++ [EConnect; EListTools; EClose]))).
Proof.
  intros Hmessages Hclient Hconnect.
  split; [intros Hlist | intros e Hlist];
    unfold post_chat, catch; rewrite Hmessages, Hclient;
    unfold bind at 1; unfold of_result at 1;
    unfold bind at 1; unfold connectMcpClient at 1; rewrite Hconnect;
    unfold finally; unfold bind at 1; unfold listMcpTools at 1; rewrite Hlist;
    unfold ret, mcp_close, emit; simpl; rewrite <- !app_assoc; reflexivity.
Qed.

(** One round of the loop, whatever its tool calls and the next call of
    the model give. *)
Lemma chat_rounds_step (n : nat) (model : string) (tools : list OpenAITool) messages
    (completion : Completion) toolLogs w (msg : Message) tc (tcs : list ToolCall) :
  first_message completion = Some msg ->
  m_tool_calls msg = Some (tc :: tcs) ->
  rounds (S n) model tools messages completion toolLogs w
  = match run_calls (tc :: tcs) toolLogs [] w with
    | (inl e, w1) => (inl e, w1)
    | (inr (toolLogs', toolMessages), w1) =>
        let content :=
          if is_set (m_content msg) then default "" (m_content msg) else "" in
        let messages' :=
          messages ++ [AssistantTurn content (m_tool_calls msg)] ++ toolMessages in
        match create (model_calls w1) messages' tools with
        | inr completion' =>
            rounds n model tools messages' completion' toolLogs'
              (emit Sess (ECreate messages' (inr completion')) w1)
        | inl e => (inl e, emit Sess (ECreate messages' (inl e)) w1)
        end
    end.
Proof.
  intros Hmsg Hcalls.
  cbn [chat_rounds]. rewrite Hmsg, Hcalls.
  change (default [] (Some (tc :: tcs))) with (tc :: tcs). cbv iota.
  unfold bind at 1.
  destruct (run_calls (tc :: tcs) toolLogs [] w) as [[e | [toolLogs' toolMessages]] w1];
    [reflexivity |].
  unfold bind at 1. unfold chat_completions_create.
  cbv beta zeta. destruct (create _ _ _); reflexivity.
Qed.

Lemma model_inputs_app (a b : list Effect) :
  model_inputs (a ++ b) = model_inputs a ++ model_inputs b.
Proof. apply flat_map_app. Qed.

Lemma model_inputs_tool_calls (effects : list Effect) :
  Forall (fun ev => is_call_tool ev = true) effects -> model_inputs effects = [].
Proof.
  induction 1 as [|ev effects Hev _ IH]; [reflexivity |].
  destruct ev; try discriminate. exact IH.
Qed.

Lemma model_inputs_count (effects : list Effect) :
  List.length (model_inputs effects) = List.length (List.filter is_create effects).
Proof.
  induction effects as [|ev effects IH]; [reflexivity |].
  destruct ev; simpl; rewrite ?IH; reflexivity.
Qed.

(** What the [for] loop adds to the trace and to the tool turns. *)
Lemma run_tool_calls_effects (toolCalls : list ToolCall) toolLogs toolMessages w
    (r : exn + list ToolLog * list ChatTurn) (w' : World Sess) :
  run_calls toolCalls toolLogs toolMessages w = (r, w') ->
  exists effects,
    trace w' = trace w ++ effects
    /\ Forall (fun ev => is_call_tool ev = true) effects
    /\ forall toolLogs' toolMessages',
         r = inr (toolLogs', toolMessages') ->
         exists turns,
           toolMessages' = toolMessages ++ turns
           /\ Forall (fun turn => tool_call_id_of turn <> None) turns.
Proof.
  revert toolLogs toolMessages w.
  induction toolCalls as [|tc rest IH]; intros toolLogs toolMessages w.
  - simpl. unfold ret. intros [= <- <-]. exists []. rewrite app_nil_r.
    split; [reflexivity |]. split; [constructor |].
    intros toolLogs' toolMessages' [= <- <-]. exists []. rewrite app_nil_r.
    split; [reflexivity | constructor].
  - simpl. unfold bind at 1. unfold of_result at 1.
    destruct (call_args JSON_parse tc) as [e | args].
    { intros [= <- <-]. exists []. rewrite app_nil_r.
      split; [reflexivity |]. split; [constructor | discriminate]. }
    unfold bind at 1. unfold callMcpTool, bind at 1, mcp_request, ret.
    destruct (tools_call (call_name tc) (or_empty args) (session w))
      as [[e | res] session'].
    { intros [= <- <-]. eexists [_]. split; [reflexivity |].
      split; [repeat constructor | discriminate]. }
    intros H. apply IH in H as (effects & Htrace & Hcalls & Hturns).
    eexists (_ :: effects). split.
    { rewrite Htrace. unfold emit. simpl. rewrite <- app_assoc. reflexivity. }
    split; [constructor; [reflexivity | exact Hcalls] |].
    intros toolLogs' toolMessages' Hr.
    destruct (Hturns _ _ Hr) as (turns & -> & Hall).
    eexists (_ :: turns). rewrite <- app_assoc. split; [reflexivity |].
    constructor; [discriminate | exact Hall].
Qed.

(** What the loop adds to the trace: calls of the model and of tools, at
    most one call of the model per round left, each on the conversation
    of the call before it extended by a round. *)
Lemma chat_rounds_effects (n : nat) (model : string) (tools : list OpenAITool) messages
    (completion : Completion) toolLogs w (r : exn + ChatResponse) (w' : World Sess) :
  rounds n model tools messages completion toolLogs w = (r, w') ->
  exists effects,
    trace w' = trace w ++ effects
    /\ Forall (fun ev => loop_effect ev = true) effects
    /\ (List.length (model_inputs effects) <= n)%nat
    /\ grows messages (model_inputs effects).
Proof.
  revert messages completion toolLogs w r w'.
  induction n as [|n IH]; intros messages completion toolLogs w r w'.
  - simpl. unfold ret. intros [= <- <-]. exists []. rewrite app_nil_r.
    repeat split; simpl; auto.
  - destruct (first_message completion) as [msg|] eqn:Hmsg.
    2: { simpl. rewrite Hmsg. unfold ret. intros [= <- <-]. exists [].
         rewrite app_nil_r. repeat split; simpl; auto; lia. }
    destruct (m_tool_calls msg) as [[|tc tcs]|] eqn:Hcalls.
    1, 3: simpl; rewrite Hmsg, Hcalls; unfold ret; simpl; intros [= <- <-]; exists [];
          rewrite app_nil_r; repeat split; simpl; auto; lia.
    rewrite (chat_rounds_step _ _ _ _ _ _ _ _ _ _ Hmsg Hcalls).
    destruct (run_calls (tc :: tcs) toolLogs [] w) as [[e | [toolLogs1 toolMessages]] w1]
      eqn:Hrun;
      apply run_tool_calls_effects in Hrun as (calls & Htrace & Hcalls' & Hturns).
    { intros [= <- <-]. exists calls. split; [exact Htrace |].
      rewrite (model_inputs_tool_calls _ Hcalls'). simpl.
      repeat split; auto; [| lia].
      eapply List.Forall_impl; [| exact Hcalls'].
      intros ev Hev. unfold loop_effect. rewrite Hev. apply orb_true_r. }
    destruct (Hturns _ _ eq_refl) as (turns & Hmessages & Hall). simpl in Hmessages.
    subst toolMessages. cbv zeta.
    assert (Hloop : Forall (fun ev => loop_effect ev = true) calls).
    { eapply List.Forall_impl; [| exact Hcalls'].
      intros ev Hev. unfold loop_effect. rewrite Hev. apply orb_true_r. }
    assert (Hext : extends_by_round messages
                     (messages
                      ++ [AssistantTurn
                            (if is_set (m_content msg) then default "" (m_content msg) else "")
                            (m_tool_calls msg)] ++ turns)).
    { eexists _, _, turns. split; [reflexivity | exact Hall]. }
    destruct (create _ _ _) as [e | completion'] eqn:Hcreate.
    { intros [= <- <-]. eexists (calls ++ [_]). split.
      { unfold emit. simpl. rewrite Htrace, <- app_assoc. reflexivity. }
      rewrite model_inputs_app, (model_inputs_tool_calls _ Hcalls'). simpl.
      split; [apply Forall_app; split; [exact Hloop | repeat constructor] |].
      split; [lia | split; [exact Hext | exact I]]. }
    intros H. apply IH in H as (effects & Htrace' & Hloop' & Hcount & Hgrows).
    eexists (calls ++ _ :: effects). split.
    { rewrite Htrace'. unfold emit. simpl. rewrite Htrace, <- !app_assoc. reflexivity. }
    rewrite model_inputs_app, (model_inputs_tool_calls _ Hcalls'). simpl.
    split; [apply Forall_app; split; [exact Hloop | constructor; [reflexivity | exact Hloop']] |].
    split; [lia | split; [exact Hext | exact Hgrows]].
Qed.

(** The trace of a request: nothing when the request is refused or has no
    client, the attempt alone when the connection fails, and otherwise the
    connection, the listing of the tools, the effects of the loop and the
    close. *)
Lemma post_chat_trace (req_body : jsval) w (r : exn + ChatResponse) (w' : World Sess) :
  chat req_body w = (r, w') ->
  ((usable_messages (request_messages req_body) = None
    \/ createOpenAIClient config <> None)
   /\ trace w' = trace w)
  \/ (usable_messages (request_messages req_body) <> None
      /\ createOpenAIClient config = None
      /\ connect_result <> None /\ trace w' = trace w ++ [EConnect])
  \/ (usable_messages (request_messages req_body) <> None
      /\ createOpenAIClient config = None
      /\ connect_result = None
      /\ exists inner,
           trace w' = trace w ++ [EConnect; EListTools] ++ inner ++ [EClose]
           /\ Forall (fun ev => loop_effect ev = true) inner
           /\ (List.length (model_inputs inner) <= 6)%nat
           /\ forall messages,
                usable_messages (request_messages req_body) = Some messages ->
                model_inputs inner = []
                \/ exists rest, model_inputs inner = messages :: rest /\ grows messages rest).
Proof.
  unfold post_chat, catch.
  destruct (usable_messages (request_messages req_body)) as [messages|];
    [| unfold ret; intros [= <- <-]; auto].
  unfold bind at 1. unfold of_result.
  destruct (createOpenAIClient config) eqn:Hclient;
    [intros [= <- <-]; left; split; [right; discriminate | reflexivity] |].
  unfold bind at 1. unfold connectMcpClient.
  destruct connect_result as [e|] eqn:Hconnect.
  { intros [= <- <-]. right. left.
    split; [discriminate |]. split; [reflexivity |]. split; [discriminate | reflexivity]. }
  intros H. right. right.
  split; [discriminate |]. split; [reflexivity |]. split; [reflexivity |]. revert H.
  unfold finally. unfold bind at 1. unfold listMcpTools.
  assert (Hnone : forall w0 : World Sess,
             trace (mcp_close Sess (emit Sess EListTools (emit Sess EConnect w0)))
             = trace w0 ++ [EConnect; EListTools] ++ [] ++ [EClose]).
  { intros w0. unfold mcp_close, emit. simpl. rewrite <- !app_assoc. reflexivity. }
  destruct listed_tools as [e | [|t ts]].
  1, 2: unfold ret; cbv beta iota zeta; intros [= <- <-];
        exists []; rewrite Hnone; repeat split; simpl; auto; lia.
  unfold bind at 1. unfold chat_completions_create.
  destruct (create _ _ _) as [e | completion].
  { cbv beta iota zeta. intros [= <- <-]. eexists [_]. split.
    { unfold mcp_close, emit. simpl. rewrite <- !app_assoc. reflexivity. }
    split; [repeat constructor |]. split; [simpl; lia |].
    intros messages' [= <-]. right. exists []. split; [reflexivity | exact I]. }
  destruct (rounds _ _ _ _ _ _ _) as [r1 w2] eqn:Hrounds.
  apply chat_rounds_effects in Hrounds as (effects & Htrace & Hloop & Hcount & Hgrows).
  intros H.
  assert (Hw : w' = mcp_close Sess w2) by (destruct r1; injection H as _ <-; reflexivity).
  eexists (_ :: effects). rewrite Hw. split.
  { unfold mcp_close. unfold emit at 1. simpl trace. rewrite Htrace.
    unfold emit. simpl. rewrite <- !app_assoc. reflexivity. }
  split; [constructor; [reflexivity | exact Hloop] |].
  split; [simpl; unfold MAX_TOOL_ITERATIONS in Hcount; lia |].
  intros messages' [= <-]. right. exists (model_inputs effects).
  split; [reflexivity | exact Hgrows].
Qed.

(** X17: the tool session of a request is released.  A request that is
    refused or has no client does nothing at all; one whose connection
    fails has only tried to connect, and closes nothing; and one that
    connected closes the session exactly once, as the last thing it does,
    after listing the tools and calling only the model and the tools in
    between, whatever goes wrong on the way. *)
Theorem session_is_closed_once (req_body : jsval) w (r : exn + ChatResponse)
    (w' : World Sess) :
  chat req_body w = (r, w') ->
  (usable_messages (request_messages req_body) = None
   \/ createOpenAIClient config <> None ->
   trace w' = trace w)
  /\ (usable_messages (request_messages req_body) <> None ->
      createOpenAIClient config = None ->
      (connect_result <> None -> trace w' = trace w ++ [EConnect])
      /\ (connect_result = None ->
          exists inner,
            trace w' = trace w ++ [EConnect; EListTools] ++ inner ++ [EClose]
            /\ Forall (fun ev => ev <> EClose /\ ev <> EConnect /\ ev <> EListTools)
                 inner)).
Proof.
  intros H.
  apply post_chat_trace in H
    as [[Hnot H] | [(Hm & Hc & Hfail & H) | (Hm & Hc & Hok & inner & H & Hloop & _)]].
  - split; [intros _; exact H |].
    intros Hm Hc. destruct Hnot; contradiction.
  - split; [intros [Hno | Hno]; contradiction |].
    intros _ _. split; [intros _; exact H | intros Hok; contradiction].
  - split; [intros [Hno | Hno]; contradiction |].
    intros _ _. split; [intros Hfail; contradiction |].
    intros _. exists inner. split; [exact H |].
    eapply List.Forall_impl; [| exact Hloop].
    intros ev Hev. destruct ev; try discriminate; repeat split; discriminate.
Qed.

(** X18: no request calls the chat model more than 6 times, whatever the
    model, the tools and the request are. *)
Theorem at_most_six_model_calls (req_body : jsval) w (r : exn + ChatResponse)
    (w' : World Sess) :
  chat req_body w = (r, w') ->
  (model_calls w <= model_calls w' <= model_calls w + 6)%nat.
Proof.
  intros H. unfold model_calls.
  apply post_chat_trace in H
    as [[_ ->] | [(_ & _ & _ & ->) | (_ & _ & _ & inner & -> & _ & Hcount & _)]].
  - lia.
  - rewrite List.filter_app, List.length_app. simpl. lia.
  - rewrite model_inputs_count in Hcount.
    rewrite !List.filter_app, !List.length_app. simpl. lia.
Qed.


Lemma run_tool_calls_app (before after : list ToolCall) toolLogs toolMessages w :
  run_calls (before ++ after) toolLogs toolMessages w
  = match run_calls before toolLogs toolMessages w with
    | (inl e, w1) => (inl e, w1)
    | (inr (toolLogs1, toolMessages1), w1) => run_calls after toolLogs1 toolMessages1 w1
    end.
Proof.
  revert toolLogs toolMessages w.
  induction before as [|tc before IH]; intros toolLogs toolMessages w; [reflexivity |].
  simpl. unfold bind, of_result.
  destruct (call_args JSON_parse tc) as [e | args]; [reflexivity |].
  destruct (callMcpTool Sess tools_call JSON_stringify_result (call_name tc) args w)
    as [[e | out] w1]; [reflexivity |].
  apply IH.
Qed.

(** X20: a tool call that is not answered ends the chat: when a tools/call
    request is rejected, in any round, the request is answered 500
    "chat_failed" with that error; and a requested call whose arguments
    are not JSON makes the round throw the parser's error at that call:
    the calls listed before it have been made, and neither it nor a call
    listed after it is. *)
Theorem unanswered_tool_call_ends_the_chat :
  (forall (req_body : jsval) w (response : ChatResponse) (w' : World Sess)
          (name : option string) (arguments : jsval) (e : exn),
      chat req_body w = (inr response, w') ->
      ~ In (ECallTool name arguments (inl e)) (trace w) ->
      In (ECallTool name arguments (inl e)) (trace w') ->
      response = mkChatResponse 500 (Failure "chat_failed" (Some e)))
  /\ (forall (before after : list ToolCall) tc toolLogs toolMessages w
             (toolLogs1 : list ToolLog) (toolMessages1 : list ChatTurn) (w1 : World Sess)
             (e : exn),
        run_calls before toolLogs toolMessages w = (inr (toolLogs1, toolMessages1), w1) ->
        call_args JSON_parse tc = inl e ->
        run_calls (before ++ tc :: after) toolLogs toolMessages w = (inl e, w1)
        /\ called_tools (trace w1)
           = called_tools (trace w) ++ List.map call_name before)
  /\ (forall (n : nat) (model : string) (tools : list OpenAITool) messages
             (completion : Completion) toolLogs w (msg : Message)
             (before after : list ToolCall) tc
             (toolLogs1 : list ToolLog) (toolMessages1 : list ChatTurn) (w1 : World Sess)
             (e : exn),
        first_message completion = Some msg ->
        m_tool_calls msg = Some (before ++ tc :: after) ->
        run_calls before toolLogs [] w = (inr (toolLogs1, toolMessages1), w1) ->
        call_args JSON_parse tc = inl e ->
        rounds (S n) model tools messages completion toolLogs w = (inl e, w1)).
Proof.
  assert (Hround : forall (before after : list ToolCall) tc toolLogs toolMessages w
                          toolLogs1 toolMessages1 (w1 : World Sess) (e : exn),
             run_calls before toolLogs toolMessages w
             = (inr (toolLogs1, toolMessages1), w1) ->
             call_args JSON_parse tc = inl e ->
             run_calls (before ++ tc :: after) toolLogs toolMessages w = (inl e, w1)).
  { intros before after tc toolLogs toolMessages w toolLogs1 toolMessages1 w1 e Hrun Hargs.
    rewrite run_tool_calls_app, Hrun.
    simpl. unfold bind at 1. unfold of_result. rewrite Hargs. reflexivity. }
  split; [| split].
  - intros req_body w response w' name arguments e. apply post_chat_tool_failure.
  - intros before after tc toolLogs toolMessages w toolLogs1 toolMessages1 w1 e Hrun Hargs.
    split; [eapply Hround; eassumption |].
    apply run_tool_calls_ordered in Hrun
      as (newLogs & newMessages & newEffects & _ & _ & Htrace & _ & Hcalled & _).
    rewrite Htrace. unfold called_tools. rewrite flat_map_app. f_equal. exact Hcalled.
  - intros n model tools messages completion toolLogs w msg before after tc
      toolLogs1 toolMessages1 w1 e Hmsg Hcalls Hrun Hargs.
    destruct (before ++ tc :: after) as [|tc0 tcs] eqn:Hlist.
    { destruct before; discriminate. }
    rewrite (chat_rounds_step _ _ _ _ _ _ _ _ _ _ Hmsg Hcalls), <- Hlist.
    rewrite (Hround _ _ _ _ _ _ _ _ _ _ Hrun Hargs). reflexivity.
Qed.

End ChatEdges.

(** ** What [callMcpTool] makes of a result *)

Lemma append_nil_r (s : string) : s +:+ "" = s.
Proof.
  induction s as [|a s IH]; [reflexivity |]. rewrite append_cons, IH. reflexivity.
Qed.

Lemma append_assoc (s t u : string) : (s +:+ t) +:+ u = s +:+ (t +:+ u).
Proof.
  induction s as [|a s IH]; [reflexivity |]. rewrite !append_cons, IH. reflexivity.
Qed.

Lemma strip_ws1 (backwards : bool) (a : ascii) (r : string) :
  ws1 a = true -> strip backwards (String a r) = strip backwards r.
Proof. intros H. simpl. rewrite H. reflexivity. Qed.

Lemma strip_ws2 (a b : ascii) (r : string) :
  ws1 a = false -> ws2 a b = true ->
  strip false (String a (String b r)) = strip false r.
Proof. intros H1 H2. simpl. rewrite H1, H2. reflexivity. Qed.

Lemma strip_ws3 (a b c : ascii) (r : string) :
  ws1 a = false -> ws2 a b = false -> ws3 a b c = true ->
  strip false (String a (String b (String c r))) = strip false r.
Proof. intros H1 H2 H3. simpl. rewrite H1, H2, H3. reflexivity. Qed.

Lemma strip_stop1 (a : ascii) :
  ws1 a = false -> strip false (String a "") = String a "".
Proof. intros H1. simpl. rewrite H1. reflexivity. Qed.

Lemma strip_stop2 (a b : ascii) :
  ws1 a = false -> ws2 a b = false ->
  strip false (String a (String b "")) = String a (String b "").
Proof. intros H1 H2. simpl. rewrite H1, H2. reflexivity. Qed.

Lemma strip_stop3 (a b c : ascii) (r : string) :
  ws1 a = false -> ws2 a b = false -> ws3 a b c = false ->
  strip false (String a (String b (String c r))) = String a (String b (String c r)).
Proof. intros H1 H2 H3. simpl. rewrite H1, H2, H3. reflexivity. Qed.

Lemma strip_front_newline_upto (n : nat) (t : string) :
  (String.length t <= n)%nat ->
  strip false (t +:+ "
")
  = if String.eqb (strip false t) "" then "" else strip false t +:+ "
".
Proof.
  assert (Hnl2 : forall a, ws2 a "010"%char = false).
  { intros a. unfold ws2. simpl. apply andb_false_r. }
  assert (Hnl3 : forall a b, ws3 a b "010"%char = false).
  { intros a b. unfold ws3. simpl. rewrite !andb_false_r. reflexivity. }
  revert t. induction n as [|n IH]; intros t Hlen.
  - destruct t; [reflexivity | simpl in Hlen; lia].
  - destruct t as [|a r]; [reflexivity |].
    rewrite append_cons.
    destruct (ws1 a) eqn:E1.
    { rewrite !strip_ws1 by exact E1. apply IH. simpl in Hlen. lia. }
    destruct r as [|b r2].
    { change ("" +:+ "
") with (String "010"%char "").
      rewrite strip_stop2, strip_stop1 by auto. reflexivity. }
    rewrite append_cons.
    destruct (ws2 a b) eqn:E2.
    { rewrite !strip_ws2 by assumption. apply IH. simpl in Hlen. lia. }
    destruct r2 as [|c r3].
    { change ("" +:+ "
") with (String "010"%char "").
      rewrite strip_stop3, strip_stop2 by auto. reflexivity. }
    rewrite append_cons.
    destruct (ws3 a b c) eqn:E3.
    { rewrite !strip_ws3 by assumption. apply IH. simpl in Hlen. lia. }
    rewrite !strip_stop3 by assumption. reflexivity.
Qed.

Lemma reverse_string_newline (u : string) :
  reverse_string (u +:+ "
") = "
" +:+ reverse_string u.
Proof.
  unfold reverse_string.
  assert (H : forall s t : string, list_ascii_of_string (s +:+ t)
                          = list_ascii_of_string s ++ list_ascii_of_string t).
  { induction s as [|a s IH]; intros t; [reflexivity |].
    rewrite append_cons. simpl. rewrite IH. reflexivity. }
  rewrite H. simpl list_ascii_of_string at 2. rewrite List.rev_app_distr. reflexivity.
Qed.

(** Trimming forgets a line feed at the end. *)
Lemma trim_newline (t : string) :
  trim (t +:+ "
") = trim t.
Proof.
  unfold trim, trimStart.
  rewrite (strip_front_newline_upto (String.length t) t) by lia.
  destruct (String.eqb_spec (strip false t) "") as [-> | _]; [reflexivity |].
  unfold trimEnd. rewrite reverse_string_newline. reflexivity.
Qed.

Lemma collect_text_from (items : list ContentItem) (acc : string) :
  fold_left
    (fun text c =>
       if String.eqb (c_type c) "text" && is_set (c_text c)
       then text +:+ default "" (c_text c) +:+ "
" else text)
    items acc
  = acc +:+ collect_text items.
Proof.
  unfold collect_text. revert acc.
  induction items as [|c items IH]; intros acc; simpl.
  - symmetry. apply append_nil_r.
  - match goal with
    | |- fold_left _ items ?x = _ +:+ fold_left _ items ?y => rewrite (IH x), (IH y)
    end.
    destruct (String.eqb (c_type c) "text" && is_set (c_text c)).
    + rewrite !append_assoc. reflexivity.
    + reflexivity.
Qed.

(** A text item, as [collect_text] reads one. *)
Lemma collect_text_cons (t : string) (rest : list ContentItem) :
  t <> "" ->
  collect_text (mkContent "text" (Some t) :: rest) = t +:+ "
" +:+ collect_text rest.
Proof.
  intros Hne. unfold collect_text at 1. simpl fold_left.
  destruct (String.eqb_spec t "") as [-> | _]; [contradiction |].
  simpl andb. cbv iota. rewrite collect_text_from.
  change (default "" (Some t)) with t. change ("" +:+ t +:+ "
") with (t +:+ "
").
  apply append_assoc.
Qed.

(** Texts put one after the other, each followed by a line feed: the
    texts joined by line feeds, and one more line feed. *)
Lemma collect_text_texts (t : string) (texts : list string) :
  Forall (fun x => x <> "") (t :: texts) ->
  collect_text (List.map (fun x => mkContent "text" (Some x)) (t :: texts))
  = String.concat "
" (t :: texts) +:+ "
".
Proof.
  revert t. induction texts as [|t' texts IH]; intros t Hall.
  - simpl List.map. rewrite collect_text_cons by (inversion Hall; assumption).
    reflexivity.
  - inversion Hall as [|x xs Hne Hrest]; subst.
    change (List.map (fun x => mkContent "text" (Some x)) (t :: t' :: texts))
      with (mkContent "text" (Some t)
            :: List.map (fun x => mkContent "text" (Some x)) (t' :: texts)).
    rewrite collect_text_cons by assumption. rewrite (IH t' Hrest).
    change (String.concat "
" (t :: t' :: texts))
      with (t +:+ "
" +:+ String.concat "
" (t' :: texts)).
    rewrite !append_assoc. reflexivity.
Qed.

(** X21: what the chat loop sees of a tool result.  The text items are
    put one after the other, each followed by a line feed, items of another
    type or without text are skipped, and the whole is trimmed: a result
    made of texts is seen as those texts joined by line feeds, trimmed at
    both ends, with its error flag; a result without any text is shown as
    its JSON.  So a result with one text, as the server's own handler
    builds them, is seen as that text trimmed. *)
Theorem tool_result_is_flattened JSON_stringify_result :
  (forall (text : string) (is_error : bool),
      text <> "" ->
      flatten_result JSON_stringify_result (text_result text is_error)
      = mkToolOutput is_error (trim text))
  /\ (forall a b : list ContentItem,
        collect_text (a ++ b) = collect_text a +:+ collect_text b)
  /\ (forall (c : ContentItem) (rest : list ContentItem),
        String.eqb (c_type c) "text" && is_set (c_text c) = false ->
        collect_text (c :: rest) = collect_text rest)
  /\ (forall (t : string) (rest : list ContentItem),
        t <> "" ->
        collect_text (mkContent "text" (Some t) :: rest)
        = t +:+ "
" +:+ collect_text rest)
  /\ (forall (t : string) (texts : list string) (is_error : bool),
        Forall (fun x => x <> "") (t :: texts) ->
        flatten_result JSON_stringify_result
          (mkResult (List.map (fun x => mkContent "text" (Some x)) (t :: texts)) is_error)
        = mkToolOutput is_error (trim (String.concat "
" (t :: texts))))
  /\ (forall res : CallToolResult,
        collect_text (content res) = "" ->
        flatten_result JSON_stringify_result res
        = mkToolOutput (isError res) (trim (JSON_stringify_result res))).
Proof.
  assert (Hne : forall u : string, String.eqb (u +:+ "
") "" = false).
  { intros u. destruct u; reflexivity. }
  split; [| split; [| split; [| split; [| split]]]].
  - intros text is_error Htext.
    unfold flatten_result, text_result. cbn [content isError].
    rewrite collect_text_cons by assumption.
    change (collect_text []) with "". rewrite append_nil_r.
    rewrite Hne, trim_newline. reflexivity.
  - intros a b. unfold collect_text at 1. rewrite fold_left_app.
    apply collect_text_from.
  - intros c rest H. unfold collect_text. simpl. rewrite H. reflexivity.
  - intros t rest. apply collect_text_cons.
  - intros t texts is_error Hall.
    unfold flatten_result. cbn [content isError].
    rewrite (collect_text_texts _ _ Hall), Hne, trim_newline. reflexivity.
  - intros res H. unfold flatten_result. rewrite H. reflexivity.
Qed.

Lemma tool_result_is_flattened_witness :
  flatten_result stringify_result (text_result "Unknown tool: sum " true)
  = mkToolOutput true "Unknown tool: sum"
  /\ flatten_result stringify_result
       (mkResult [mkContent "text" (Some " stored "); mkContent "text" (Some "7 ")] false)
     = mkToolOutput false ("stored " +:+ "
" +:+ "7")
  /\ flatten_result stringify_result (mkResult [mkContent "image" None] false)
     = mkToolOutput false
         ("{" +:+ json_string "content" +:+ ":[{" +:+ json_string "type" +:+ ":"
          +:+ json_string "image" +:+ "}]}").
Proof.
  split; [| split].
  - rewrite (proj1 (tool_result_is_flattened stringify_result)) by discriminate.
    reflexivity.
  - etransitivity;
      [apply (proj1 (proj2 (proj2 (proj2 (proj2 (tool_result_is_flattened
                                                   stringify_result)))))
                " stored " ["7 "] false);
       repeat constructor; discriminate
      | reflexivity].
  - rewrite (proj2 (proj2 (proj2 (proj2 (proj2 (tool_result_is_flattened
                                                  stringify_result))))))
      by reflexivity.
    reflexivity.
Defined.

(** ** The chat endpoint on the deployment *)

Lemma chat_request_is_validated_witness :
  post_chat Database openai_config None (inr toolsList) plain_model
    (local_tools_call binds_anything server_clock mcp_error_32603) scripted_parse stringify_result
    (JObj [("message", JStr "hi"); ("messages", JArr [])]) fresh_world
  = (inr (mkChatResponse 400
            (Failure "Provide `message` or non-empty `messages` array." None)),
     fresh_world)
  /\ usable_messages (request_messages (JObj [("message", JStr "  hi ")]))
     = Some [UserTurn "hi"].
Proof.
  split.
  - apply (proj1 (proj2 (chat_request_is_validated Database openai_config None
                           (inr toolsList) plain_model
                           (local_tools_call binds_anything server_clock mcp_error_32603)
                           scripted_parse stringify_result
                           (JObj [("message", JStr "hi"); ("messages", JArr [])])
                           fresh_world))).
    + reflexivity.
    + intros item items. discriminate.
  - apply (proj1 (proj2 (proj2 (chat_request_is_validated Database openai_config None
                                  (inr toolsList) plain_model
                                  (local_tools_call binds_anything server_clock mcp_error_32603)
                                  scripted_parse stringify_result
                                  (JObj [("message", JStr "  hi ")]) fresh_world)))
             "  hi "); reflexivity.
Defined.

Lemma chat_needs_its_key_witness :
  post_chat Database no_key_config None (inr toolsList) plain_model
    (local_tools_call binds_anything server_clock mcp_error_32603) scripted_parse stringify_result
    demo_request fresh_world
  = (inr (mkChatResponse 500
            (Failure "chat_failed" (Some "Error: Missing OPENAI_API_KEY"))),
     fresh_world).
Proof.
  apply (proj2 (proj2 (proj2 (chat_needs_its_key Database no_key_config None
                                (inr toolsList) plain_model
                                (local_tools_call binds_anything server_clock mcp_error_32603)
                                scripted_parse stringify_result demo_request fresh_world
                                [UserTurn "Store value 7 called demo, then sum last 24h"]))));
    reflexivity.
Defined.

Lemma plain_answer_is_returned_witness :
  fst (demo_chat None plain_model)
  = inr (mkChatResponse 200 (Reply "Nothing to do." "gpt-4o-mini" []))
  /\ model_calls (snd (demo_chat None plain_model)) = 1%nat.
Proof.
  unfold demo_chat.
  rewrite (plain_answer_is_returned Database openai_config None (inr toolsList)
             plain_model (local_tools_call binds_anything server_clock mcp_error_32603)
             scripted_parse stringify_result demo_request fresh_world
             [UserTurn "Store value 7 called demo, then sum last 24h"]
             (hd (mkTool "" None None) toolsList) (tl toolsList)
             (completion_of (mkMessage (Some "Nothing to do.") None))
             (mkMessage (Some "Nothing to do.") None)); try reflexivity.
  split; reflexivity.
Defined.

Lemma tools_must_be_listed_witness :
  post_chat Database openai_config None (inr []) plain_model
    (local_tools_call binds_anything server_clock mcp_error_32603) scripted_parse stringify_result
    demo_request fresh_world
  = (inr (mkChatResponse 500 (Failure "No MCP tools available" None)),
     mkWorld empty_db [EConnect; EListTools; EClose]).
Proof.
  apply (proj1 (tools_must_be_listed Database openai_config None (inr []) plain_model
                  (local_tools_call binds_anything server_clock mcp_error_32603)
                  scripted_parse stringify_result demo_request fresh_world
                  [UserTurn "Store value 7 called demo, then sum last 24h"]
                  eq_refl eq_refl eq_refl));
    reflexivity.
Defined.

Lemma session_is_closed_once_witness :
  (exists inner,
      trace (snd (demo_chat None store_and_sum_model))
      = [EConnect; EListTools] ++ inner ++ [EClose]
      /\ Forall (fun ev => ev <> EClose /\ ev <> EConnect /\ ev <> EListTools) inner)
  /\ trace (snd (demo_chat (Some "Error: SSE error") store_and_sum_model)) = [EConnect].
Proof.
  split.
  - apply (proj2 (proj2 (session_is_closed_once Database openai_config None
                           (inr toolsList) store_and_sum_model
                           (local_tools_call binds_anything server_clock mcp_error_32603)
                           scripted_parse stringify_result demo_request fresh_world
                           (fst (demo_chat None store_and_sum_model))
                           (snd (demo_chat None store_and_sum_model))
                           (surjective_pairing (demo_chat None store_and_sum_model)))
                    ltac:(discriminate) eq_refl)
             eq_refl).
  - apply (proj1 (proj2 (session_is_closed_once Database openai_config
                           (Some "Error: SSE error")
                           (inr toolsList) store_and_sum_model
                           (local_tools_call binds_anything server_clock mcp_error_32603)
                           scripted_parse stringify_result demo_request fresh_world
                           (fst (demo_chat (Some "Error: SSE error") store_and_sum_model))
                           (snd (demo_chat (Some "Error: SSE error") store_and_sum_model))
                           (surjective_pairing
                              (demo_chat (Some "Error: SSE error") store_and_sum_model)))
                    ltac:(discriminate) eq_refl)
             ltac:(discriminate)).
Defined.

Lemma at_most_six_model_calls_witness :
  (model_calls (snd (demo_chat None looping_model)) <= 6)%nat.
Proof.
  apply (at_most_six_model_calls Database openai_config None (inr toolsList)
           looping_model (local_tools_call binds_anything server_clock mcp_error_32603)
           scripted_parse stringify_result demo_request fresh_world
           (fst (demo_chat None looping_model)) (snd (demo_chat None looping_model))
           (surjective_pairing (demo_chat None looping_model))).
Defined.


Lemma unanswered_tool_call_ends_the_chat_witness :
  fst (post_chat Database openai_config None (inr toolsList) store_and_sum_model
         broken_session scripted_parse stringify_result demo_request fresh_world)
  = inr (mkChatResponse 500
           (Failure "chat_failed" (Some "Error: SSE connection closed")))
  /\ exists w1,
       run_tool_calls Database
         (local_tools_call binds_anything server_clock mcp_error_32603)
         scripted_parse stringify_result
         ([store_call]
          ++ mkToolCall "call_3" (Some (mkFunctionCall (Some "sum") (Some "{")))
          :: [sum_call])
         [] [] fresh_world
       = (inl "SyntaxError: Unexpected token", w1)
       /\ called_tools (trace w1) = [Some "store"]
       /\ entries (session w1) = [mkEntry 1 7 "demo" "2025-06-01T12:00:00.000Z"].
Proof.
  split.
  - destruct (post_chat Database openai_config None (inr toolsList) store_and_sum_model
                broken_session scripted_parse stringify_result demo_request fresh_world)
      as [[e | response] w'] eqn:E.
    { vm_compute in E. discriminate. }
    simpl fst. f_equal.
    apply (proj1 (unanswered_tool_call_ends_the_chat Database openai_config None
                    (inr toolsList) store_and_sum_model broken_session scripted_parse
                    stringify_result)
             demo_request fresh_world response w' (Some "store") store_arguments
             "Error: SSE connection closed" E).
    + intros [].
    + replace w' with (snd (post_chat Database openai_config None (inr toolsList)
                              store_and_sum_model broken_session scripted_parse
                              stringify_result demo_request fresh_world))
        by (rewrite E; reflexivity).
      vm_compute. do 3 right. left. reflexivity.
  - destruct (run_tool_calls Database
                (local_tools_call binds_anything server_clock mcp_error_32603)
                scripted_parse stringify_result [store_call] [] [] fresh_world)
      as [[e | [toolLogs1 toolMessages1]] w1] eqn:E.
    { vm_compute in E. discriminate. }
    exists w1.
    destruct (proj1 (proj2 (unanswered_tool_call_ends_the_chat Database openai_config
                              None (inr toolsList) store_and_sum_model
                              (local_tools_call binds_anything server_clock
                                 mcp_error_32603)
                              scripted_parse stringify_result))
                [store_call] [sum_call]
                (mkToolCall "call_3" (Some (mkFunctionCall (Some "sum") (Some "{"))))
                [] [] fresh_world toolLogs1 toolMessages1 w1
                "SyntaxError: Unexpected token" E eq_refl)
      as [Hrun Hcalled].
    split; [exact Hrun |]. split; [exact Hcalled |].
    vm_compute in E. injection E as _ _ <-. reflexivity.
Defined.
